(** * MolHGCN: the network constructor, its forward pass and the training script

    A shallow embedding of

      - [src/molhgcn/hypergraphnetwork/Networks.py]  (class [Net]),
      - [src/cleanedup_regression_node.py]           ([get_config], [main]
        and the script entry point),

    together with the properties of the design document that concern them.

    Conventions.

      - Python floats are kept abstract: every definition is parametric in a
        type [R] of scalars with the arithmetic of the class [Scalar]; the
        rationals are one instance, used to run the definitions.  Float
        literals of the configuration (learning rate, dropout rates) are
        exact rationals.
      - A tensor of rank two is a list of rows.  Moving a tensor or a graph
        to a device ([.to(device)]) and the cast [.float()] change no value
        and are left out.
      - Calls into torch, dgl, wandb and into the modules of the repository
        that are not part of the sources at hand are taken on their normal
        return; an exception raised by any of them aborts the run and such
        executions are not described here. *)

From Stdlib Require Import QArith.
From stdpp Require Import base option list strings gmap.

Set Default Proof Using "Type".
Local Open Scope nat_scope.

(** ** Scalars and tensors *)

Class Scalar (R : Type) := {
  of_nat : nat -> R;          (* float(n) *)
  radd : R -> R -> R;
  rsub : R -> R -> R;
  rmul : R -> R -> R;
  rdiv : R -> R -> R;
  rmax : R -> R -> R
}.

#[export] Instance Q_Scalar : Scalar Q := {|
  of_nat n := inject_Z (Z.of_nat n);
  radd := Qplus;
  rsub := Qminus;
  rmul := Qmult;
  rdiv := Qdiv;
  rmax x y := if Qle_bool x y then y else x
|}.

Module Tensor.
Section Tensor.
Context {R : Type} `{Scalar R}.

(** The sum of the entries, taken from the left (torch leaves the order of
    a reduction open; with exact arithmetic every order gives the same). *)
Definition rsum (xs : list R) : R := foldl radd (of_nat 0) xs.

(** [x.numel()] and the row-major flattening. *)
Definition flatten (x : list (list R)) : list R := concat x.
Definition numel (x : list (list R)) : nat := length (flatten x).

(** [x.mean()]: the sum of all elements over their number. *)
Definition mean (x : list (list R)) : R := rdiv (rsum (flatten x)) (of_nat (numel x)).

(** [torch.cat([x, y], dim=-1)] on tensors with the same number of rows. *)
Definition cat_last (x y : list (list R)) : list (list R) := zip_with app x y.

(** every row of [x] has [d] entries *)
Definition width_is (d : nat) (x : list (list R)) : Prop :=
  Forall (fun r => length r = d) x.
End Tensor.
End Tensor.

(** ** [Networks.py] *)

Module Networks.

(** The arguments of [MLP(...)] ([molhgcn.utils.MLP], not among the sources).
    A keyword the call site leaves out is [None]: the constructor's default
    applies. *)
Record MLP := mkMLP {
  input_dim : nat;
  output_dim : nat;
  dropout_prob : Q;
  num_neurons : option (list nat);
  hidden_act : option string;
  input_norm : option string
}.

(** [nn.Linear(in_features, out_features)] *)
Record Linear := mkLinear { in_features : nat; out_features : nat }.

(** [WeightedSumAndMax(in_feats)] *)
Record WeightedSumAndMax := mkWeightedSumAndMax { in_feats : nat }.

(** [HyperMPNN(em, nm, am, fem, fnm, fam)], positional. *)
Record HyperMPNN := mkHyperMPNN {
  em : MLP; nm : MLP; am : MLP; fem : MLP; fnm : MLP; fam : MLP
}.

Record Net := mkNet {
  node_encoder : Linear;
  edge_encoder : Linear;
  fg_encoder : Linear;
  node_readout_func : WeightedSumAndMax;
  fg_readout_func : WeightedSumAndMax;
  reg : MLP;
  gnn_l : HyperMPNN
}.

(** [Net.__init__] *)
Definition Net_init (out_dim node_in_dim edge_in_dim fg_in_dim : nat)
    (num_neurons : list nat) (input_norm : string) (nef_dp reg_dp : Q)
    (node_hidden_dim edge_hidden_dim fg_hidden_dim : nat)
    (activation : string) : Net :=
  let nm := mkMLP (node_hidden_dim + edge_hidden_dim) node_hidden_dim nef_dp
              (Some num_neurons) (Some activation) (Some input_norm) in
  let em := mkMLP (node_hidden_dim * 2 + edge_hidden_dim) edge_hidden_dim nef_dp
              (Some num_neurons) (Some activation) (Some input_norm) in
  let am := mkMLP (node_hidden_dim * 2 + edge_hidden_dim) 1 nef_dp
              (Some num_neurons) (Some "Identity"%string) (Some input_norm) in
  let fem := mkMLP (2 * (node_hidden_dim + fg_hidden_dim)) fg_hidden_dim nef_dp
              (Some num_neurons) (Some activation) (Some input_norm) in
  let fnm := mkMLP (fg_hidden_dim * 2 + node_hidden_dim) fg_hidden_dim nef_dp
              (Some num_neurons) (Some activation) (Some input_norm) in
  let fam := mkMLP (2 * (node_hidden_dim + fg_hidden_dim)) fg_hidden_dim nef_dp
              (Some num_neurons) (Some "Identity"%string) (Some input_norm) in
  {| node_encoder := mkLinear node_in_dim node_hidden_dim;
     edge_encoder := mkLinear edge_in_dim edge_hidden_dim;
     fg_encoder := mkLinear fg_in_dim fg_hidden_dim;
     node_readout_func := mkWeightedSumAndMax node_hidden_dim;
     fg_readout_func := mkWeightedSumAndMax fg_hidden_dim;
     reg := mkMLP (2 * (node_hidden_dim + fg_hidden_dim)) out_dim reg_dp None None None;
     gnn_l := mkHyperMPNN em nm am fem fnm fam |}.

(** The default of the keyword [activation]. *)
Definition default_activation : string := "LeakyReLU".

(** *** The heterogeneous graph object

    Two node types; an edge relation is named by its canonical triple, as in
    [('atom', 'interacts', 'atom')].  [g.nodes[nt].data] and
    [g.edges[et].data] are dictionaries from feature names to tensors. *)
Inductive ntype := atom | func_group.

Definition etype : Type := string * string * string.

Section Graph.
Context {R : Type}.

Record store := mkStore {
  atom_data : gmap string (list (list R));
  fg_data : gmap string (list (list R));
  edge_data : gmap etype (gmap string (list (list R)))
}.

Record graph := mkGraph {
  n_atoms : list nat;                      (* atoms of each graph of the batch *)
  n_func_groups : list nat;                (* functional groups of each graph *)
  edges : gmap etype (list (nat * nat));
  data : store
}.

Definition batch_num_nodes (g : graph) (nt : ntype) : list nat :=
  match nt with atom => n_atoms g | func_group => n_func_groups g end.

Definition ndata (g : graph) (nt : ntype) : gmap string (list (list R)) :=
  match nt with atom => atom_data (data g) | func_group => fg_data (data g) end.

Definition edata (g : graph) (et : etype) : gmap string (list (list R)) :=
  default ∅ (edge_data (data g) !! et).

Definition with_store (g : graph) (st : store) : graph :=
  {| n_atoms := n_atoms g; n_func_groups := n_func_groups g;
     edges := edges g; data := st |}.

(** [g.nodes[nt].data[k] = v] *)
Definition store_set_ndata (nt : ntype) (k : string) (v : list (list R)) (st : store) : store :=
  match nt with
  | atom => {| atom_data := <[k := v]> (atom_data st);
               fg_data := fg_data st; edge_data := edge_data st |}
  | func_group => {| atom_data := atom_data st;
                     fg_data := <[k := v]> (fg_data st); edge_data := edge_data st |}
  end.

(** *** Code that runs on a graph object

    A computation that may update the feature dictionaries of the graph it
    is given: it maps the graph to the graph afterwards and a result. *)
Definition GM (A : Type) : Type := graph -> graph * A.

Definition gret {A} (a : A) : GM A := fun g => (g, a).

Definition gbind {A B} (m : GM A) (k : A -> GM B) : GM B :=
  fun g => let (g1, a) := m g in k a g1.

Definition set_ndata (nt : ntype) (k : string) (v : list (list R)) : GM unit :=
  fun g => (with_store g (store_set_ndata nt k v (data g)), tt).

(** A call [f(g, ...)] into another module: the callee sees the graph and
    leaves its feature dictionaries in some state. *)
Definition call {A} (f : graph -> store * A) : GM A :=
  fun g => let (st, a) := f g in (with_store g st, a).

(** [with g.local_scope(): body]: the feature dictionaries are copied on
    entry (the copies hold the same tensors) and the ones saved on entry
    are put back on exit. *)
Definition local_scope {A} (body : GM A) : GM A :=
  fun g =>
    let old := data g in
    let (g1, a) := body g in
    (with_store g1 old, a).
End Graph.

Arguments store R : clear implicits.
Arguments graph R : clear implicits.

#[global] Instance GM_ret {R} : MRet (@GM R) := fun A a => gret a.
#[global] Instance GM_bind {R} : MBind (@GM R) := fun A B k m => gbind m k.

(** *** The modules [Net] is assembled from

    [nn.Linear] belongs to torch; [MLP], [HyperMPNN] and [WeightedSumAndMax]
    are imported from modules that are not among the sources.  What a call
    of each computes is a parameter: the configuration the constructor
    recorded, the learned parameters, and the arguments of the call.  The
    two modules that receive the graph may write to its dictionaries. *)
Record Modules (R : Type) := mkModules {
  PLinear : Type;
  PMLP : Type;
  PHyperMPNN : Type;
  PReadout : Type;
  Linear_call : Linear -> PLinear -> list (list R) -> list (list R);
  MLP_call : MLP -> PMLP -> list (list R) -> list (list R);
  HyperMPNN_call : HyperMPNN -> PHyperMPNN -> graph R ->
    list (list R) -> list (list R) -> list (list R) ->
    store R * (list (list R) * list (list R) * list (list R));
  WeightedSumAndMax_call : WeightedSumAndMax -> PReadout -> graph R ->
    list (list R) -> ntype -> store R * list (list R)
}.

Arguments PLinear {R} _.
Arguments PMLP {R} _.
Arguments PHyperMPNN {R} _.
Arguments PReadout {R} _.
Arguments Linear_call {R} _ _ _ _.
Arguments MLP_call {R} _ _ _ _.
Arguments HyperMPNN_call {R} _ _ _ _ _ _ _.
Arguments WeightedSumAndMax_call {R} _ _ _ _ _ _.

(** The learned parameters of a [Net], one entry per submodule. *)
Record NetParams {R : Type} (M : Modules R) := mkNetParams {
  node_encoder_w : PLinear M;
  edge_encoder_w : PLinear M;
  fg_encoder_w : PLinear M;
  node_readout_w : PReadout M;
  fg_readout_w : PReadout M;
  reg_w : PMLP M;
  gnn_l_w : PHyperMPNN M
}.

Arguments mkNetParams {R} M _ _ _ _ _ _ _.
Arguments node_encoder_w {R M} _.
Arguments edge_encoder_w {R M} _.
Arguments fg_encoder_w {R M} _.
Arguments node_readout_w {R M} _.
Arguments fg_readout_w {R M} _.
Arguments reg_w {R M} _.
Arguments gnn_l_w {R M} _.

Section Forward.
Context {R : Type} `{Scalar R}.
Variable M : Modules R.
Variable net : Net.
Variable w : NetParams M.

(** [Net.forward], lines 47 to 54: encoders, message passing, and the two
    assignments to ['h']. *)
Definition forward_embed (nf ef ff : list (list R))
    : GM (list (list R) * list (list R)) :=
  let unf := Linear_call M (node_encoder net) (node_encoder_w w) nf in
  let uef := Linear_call M (edge_encoder net) (edge_encoder_w w) ef in
  let uff := Linear_call M (fg_encoder net) (fg_encoder_w w) ff in
  '(unf, uef, uff) ← call (fun g => HyperMPNN_call M (gnn_l net) (gnn_l_w w) g unf uef uff);
  set_ndata atom "h" unf;;
  set_ndata func_group "h" uff;;
  gret (unf, uff).

(** lines 56 to 58: the two readouts and their concatenation *)
Definition forward_readout (unf uff : list (list R)) : GM (list (list R)) :=
  node_readout ← call (fun g => WeightedSumAndMax_call M (node_readout_func net)
                                  (node_readout_w w) g unf atom);
  fg_readout ← call (fun g => WeightedSumAndMax_call M (fg_readout_func net)
                                (fg_readout_w w) g uff func_group);
  gret (Tensor.cat_last node_readout fg_readout).

(** the body of the [with] block *)
Definition forward_body (nf ef ff : list (list R)) : GM (list (list R)) :=
  '(unf, uff) ← forward_embed nf ef ff;
  readout ← forward_readout unf uff;
  let y := MLP_call M (reg net) (reg_w w) readout in
  gret y.

(** [Net.forward(g, nf, ef, ff)]: the graph afterwards and the value
    returned. *)
Definition forward (g : graph R) (nf ef ff : list (list R)) : graph R * list (list R) :=
  local_scope (forward_body nf ef ff) g.

(** The tensor handed to [self.reg] in the call [forward g nf ef ff]. *)
Definition regressor_input (g : graph R) (nf ef ff : list (list R)) : list (list R) :=
  snd (('(unf, uff) ← forward_embed nf ef ff; forward_readout unf uff) g).

(** The graph as the readout functions receive it. *)
Definition graph_in_scope (g : graph R) (nf ef ff : list (list R)) : graph R :=
  fst (forward_embed nf ef ff g).
End Forward.

(** *** The readout *)
Section Readout.
Context {R : Type} `{Scalar R}.

(** Modelled from the spec: the class [WeightedSumAndMax]
    ([molhgcn.hypergraphnetwork.readout]) is not among the sources.  The
    design document (4.2): for each graph of the batch, a learned scoring
    function gives every node a scalar weight; the readout of the graph is
    the weighted sum of its node vectors followed by their elementwise
    maximum; nodes of different graphs are never mixed; a graph without
    nodes of the type gets the zero vector and a broadcast default. *)
Record ReadoutParams := mkReadoutParams {
  score : list R -> R;        (* the learned per-node weight *)
  empty_max : R               (* the maximum over no nodes *)
}.

Definition vadd (x y : list R) : list R := zip_with radd x y.
Definition vscale (c : R) (x : list R) : list R := map (rmul c) x.
Definition vmax (x y : list R) : list R := zip_with rmax x y.

(** Modelled from the spec: the weighted sum over the nodes of one graph. *)
Definition weighted_sum (d : nat) (p : ReadoutParams) (nodes : list (list R)) : list R :=
  foldl vadd (replicate d (of_nat 0)) (map (fun h => vscale (score p h) h) nodes).

(** Modelled from the spec: the elementwise maximum over the nodes of one
    graph. *)
Definition max_nodes (d : nat) (p : ReadoutParams) (nodes : list (list R)) : list R :=
  match nodes with
  | [] => replicate d (empty_max p)
  | h :: tl => foldl vmax h tl
  end.

(** Modelled from the spec: the rows of a batched tensor, graph by graph. *)
Fixpoint segments (counts : list nat) (rows : list (list R)) : list (list (list R)) :=
  match counts with
  | [] => []
  | n :: cs => take n rows :: segments cs (drop n rows)
  end.

(** Modelled from the spec: the readout vector of one graph. *)
Definition readout_graph (d : nat) (p : ReadoutParams) (nodes : list (list R)) : list R :=
  weighted_sum d p nodes ++ max_nodes d p nodes.

(** Modelled from the spec: a call of a [WeightedSumAndMax] module. *)
Definition WeightedSumAndMax_spec (m : WeightedSumAndMax) (p : ReadoutParams)
    (g : graph R) (feats : list (list R)) (nt : ntype) : store R * list (list R) :=
  (data g, map (readout_graph (in_feats m) p) (segments (batch_num_nodes g nt) feats)).

(** The modules [M] with the readout of the design document. *)
Definition with_spec_readout (M : Modules R) : Modules R :=
  {| PLinear := PLinear M; PMLP := PMLP M; PHyperMPNN := PHyperMPNN M;
     PReadout := ReadoutParams;
     Linear_call := Linear_call M; MLP_call := MLP_call M;
     HyperMPNN_call := HyperMPNN_call M;
     WeightedSumAndMax_call := WeightedSumAndMax_spec |}.
End Readout.

Arguments ReadoutParams R : clear implicits.

End Networks.

(** ** [cleanedup_regression_node.py] *)

Module Train.
Import Networks.

(** *** [get_config] *)
Record ModelConfig := mkModelConfig {
  num_neurons : list nat;
  input_norm : string;
  nef_dp : Q;
  reg_dp : Q
}.

Record DataConfig := mkDataConfig { init_feat : bool; fg_cyc : bool }.

Record TrainConfig := mkTrainConfig {
  ds : string;
  n_procs : nat;
  lr : Q;
  bs : nat;
  epochs : nat;
  T_0 : nat
}.

Record LogConfig := mkLogConfig { log_every : nat }.

Record WandbConfig := mkWandbConfig { group : option string }.

Record Config := mkConfig {
  model : ModelConfig;
  data : DataConfig;
  train : TrainConfig;
  log : LogConfig;
  wandb : WandbConfig
}.

Definition get_config (ds : string) (init_feat fg_cyc : bool) (num_neurons : list nat)
    (input_norm : string) (nef_dp reg_dp : Q) : Config :=
  {| model := {| num_neurons := num_neurons; input_norm := input_norm;
                 nef_dp := nef_dp; reg_dp := reg_dp |};
     data := {| init_feat := init_feat; fg_cyc := fg_cyc |};
     train := {| ds := ds; n_procs := 3; lr := (1 # 1000)%Q; bs := 128;
                 epochs := 2400; T_0 := 50 |};
     log := {| log_every := 50 |};
     wandb := {| group := None |} |}.

(** *** Strings and paths *)

(** [os.path.join(a, b)] for a relative [b]. *)
Definition ends_with_slash (a : string) : bool :=
  match last (String.list_ascii_of_string a) with
  | Some c => Ascii.eqb c (Ascii.ascii_of_nat 47)
  | None => false
  end.

Definition join (a b : string) : string :=
  if bool_decide (a = ""%string) then b
  else if ends_with_slash a then a +:+ b
  else a +:+ "/" +:+ b.

(** *** [torch.nn.MSELoss] *)
Inductive reduction := RedNone | RedMean | RedSum.

Section Loss.
Context {R : Type} `{Scalar R}.

(** the squared error, element by element (both tensors of one shape) *)
Definition squared_error (input target : list (list R)) : list (list R) :=
  zip_with (zip_with (fun a b => rmul (rsub a b) (rsub a b))) input target.

Definition MSELoss (r : reduction) (input target : list (list R)) : list (list R) :=
  match r with
  | RedNone => squared_error input target
  | RedMean => [[Tensor.mean (squared_error input target)]]
  | RedSum => [[Tensor.rsum (Tensor.flatten (squared_error input target))]]
  end.

(** [x.shape[1]] of a tensor with at least one row *)
Definition shape1 (x : list (list R)) : nat :=
  match x with r :: _ => length r | [] => 0 end.
End Loss.

(** *** The calls the script makes

    One constructor per statement that reads a file, builds or changes the
    model, the optimizer, the scheduler or the tracking run, runs the model
    or switches a mode, with the arguments of the call.  The dataset, the
    loader and the criterion ([TestGraphDataset], [TestGraphDataLoader],
    [torch.nn.MSELoss]) and the batched graphs ([dgl.batch]) are values
    built from their arguments: they are records and functions below and
    have no constructor here.  [ModelInit] is the construction of the model,
    [Net3_2(...)], and [ModelCall] a call [model(g, nf, ef, ff)]; the class
    is imported from [cleanedup.hypergraphnetwork.Networks], which is not
    among the sources. *)
Inductive event (R SD : Type) :=
| LoadGraphs (path : string)
| ModelInit (out_dim node_in_dim edge_in_dim fg_in_dim : nat) (cfg : ModelConfig)
            (device : string)
| AdamPInit (lr : Q)
| SchedulerInit (T_0 : nat)
| WandbInit (project : string) (group : option string) (cfg : Config)
| ToYaml (path : string)
| WandbWatch
| ModelCall (g : graph R) (nf ef ff : list (list R))
| ZeroGrad
| Backward (loss : R)
| OptStep
| SchedulerStep (epoch : R)
| NoGradEnter
| NoGradExit
| ModelEval
| ModelTrain
| WandbLog (log_dict : gmap string R)
| TorchSave (state_dict : SD) (path : string)
| RunFinish.

Arguments LoadGraphs {R SD} _.
Arguments ModelInit {R SD} _ _ _ _ _ _.
Arguments AdamPInit {R SD} _.
Arguments SchedulerInit {R SD} _.
Arguments WandbInit {R SD} _ _ _.
Arguments ToYaml {R SD} _.
Arguments WandbWatch {R SD}.
Arguments ModelCall {R SD} _ _ _ _.
Arguments ZeroGrad {R SD}.
Arguments Backward {R SD} _.
Arguments OptStep {R SD}.
Arguments SchedulerStep {R SD} _.
Arguments NoGradEnter {R SD}.
Arguments NoGradExit {R SD}.
Arguments ModelEval {R SD}.
Arguments ModelTrain {R SD}.
Arguments WandbLog {R SD} _.
Arguments TorchSave {R SD} _ _.
Arguments RunFinish {R SD}.

(** [TestGraphDataset(graphs, y)] and [TestGraphDataLoader(dataset, ...)]
    ([cleanedup.utils.chem.data], not among the sources): the arguments of
    the constructors. *)
Record TestGraphDataset (R : Type) := mkDataset {
  ds_graphs : list (graph R);
  ds_labels : list (list R)
}.

Record TestGraphDataLoader (R : Type) := mkDataLoader {
  dl_dataset : TestGraphDataset R;
  dl_num_workers : nat;
  dl_batch_size : nat;
  dl_shuffle : bool
}.

Arguments mkDataset {R} _ _.
Arguments mkDataLoader {R} _ _ _ _.

(** *** The runtime

    The state of everything outside the script (the model, optimizer and
    scheduler objects with their parameters, the random generators, the
    tracking run, the files) is a value of [RT_state].  [react] is the
    effect of a call on it; the other fields give the values calls return. *)
Record Runtime (R : Type) := mkRuntime {
  RT_state : Type;
  RT_state_dict : Type;
  react : event R RT_state_dict -> RT_state -> RT_state;
  (* dgl.data.utils.load_graphs(path): the graphs and the label dictionary *)
  load_graphs : string -> RT_state -> list (graph R) * gmap string (list (list R));
  (* dgl.batch *)
  dgl_batch : list (graph R) -> graph R;
  (* len(train_dl), and batch i of an iteration over train_dl begun in a state *)
  dl_len : TestGraphDataLoader R -> nat;
  dl_batch : TestGraphDataLoader R -> RT_state -> nat -> graph R * list (list R);
  (* model(g, nf, ef, ff) *)
  model_call : graph R -> list (list R) -> list (list R) -> list (list R) ->
               RT_state -> list (list R);
  (* opt.param_groups[0]['lr'] *)
  param_group_lr : RT_state -> R;
  (* compute_rmse (cleanedup.utils.chem.stat_utils, not among the sources) *)
  compute_rmse : list (list R) -> list (list R) -> R;
  (* model.state_dict() *)
  get_state_dict : RT_state -> RT_state_dict;
  (* wandb.run.dir *)
  wandb_run_dir : RT_state -> string
}.

Arguments RT_state {R} _.
Arguments RT_state_dict {R} _.
Arguments react {R} _ _ _.
Arguments load_graphs {R} _ _ _.
Arguments dgl_batch {R} _ _.
Arguments dl_len {R} _ _.
Arguments dl_batch {R} _ _ _ _.
Arguments model_call {R} _ _ _ _ _ _.
Arguments param_group_lr {R} _ _.
Arguments compute_rmse {R} _ _ _.
Arguments get_state_dict {R} _ _.
Arguments wandb_run_dir {R} _ _.

Section Script.
Context {R : Type} `{Scalar R}.
Variable rt : Runtime R.

#[local] Abbreviation S := (RT_state rt).
#[local] Abbreviation ev := (event R (RT_state_dict rt)).

(** *** The script as a computation

    A statement maps the state of the runtime to its result, the state
    afterwards and the calls it made, in order. *)
Record outcome (A : Type) := mkOutcome {
  value : A;
  state : S;
  events : list ev
}.
Arguments mkOutcome {A} _ _ _.
Arguments value {A} _.
Arguments state {A} _.
Arguments events {A} _.

Definition M (A : Type) : Type := S -> outcome A.

Definition ret {A} (a : A) : M A := fun s => mkOutcome a s [].

Definition bind {A B} (m : M A) (k : A -> M B) : M B :=
  fun s =>
    match m s with
    | mkOutcome a s1 e1 =>
        match k a s1 with
        | mkOutcome b s2 e2 => mkOutcome b s2 (e1 ++ e2)
        end
    end.

#[local] Instance M_ret : MRet M := fun A a => ret a.
#[local] Instance M_bind : MBind M := fun A B k m => bind m k.

(** a call made for its effect *)
Definition emit (e : ev) : M unit := fun s => mkOutcome tt (react rt e s) [e].

(** a value read off the runtime *)
Definition read {A} (f : S -> A) : M A := fun s => mkOutcome (f s) s [].

(** [for x in xs: acc = body(x, acc)] *)
Fixpoint for_fold {A St} (xs : list A) (body : A -> St -> M St) (acc : St) : M St :=
  match xs with
  | [] => ret acc
  | x :: xs' => bind (body x acc) (for_fold xs' body)
  end.

(** [enumerate(xs)] *)
Definition enumerate {A} (xs : list A) : list (nat * A) := zip (seq 0 (length xs)) xs.

(** the batches of one iteration over the loader: [len(train_dl)] of them *)
Definition dl_iter (dl : TestGraphDataLoader R) : M (list (graph R * list (list R))) :=
  read (fun s => map (dl_batch rt dl s) (seq 0 (dl_len rt dl))).

Definition load (path : string) : M (list (graph R) * gmap string (list (list R))) :=
  emit (LoadGraphs path);; read (load_graphs rt path).

Definition call_model (g : graph R) (nf ef ff : list (list R)) : M (list (list R)) :=
  fun s => mkOutcome (model_call rt g nf ef ff s)
                     (react rt (ModelCall g nf ef ff) s) [ModelCall g nf ef ff].

(** [g.nodes[nt].data['feat']] and [g.edges[et].data['feat']]; a missing
    key is a [KeyError] in Python and the empty tensor here. *)
Definition node_feat (g : graph R) (nt : ntype) : list (list R) :=
  ndata g nt !!! "feat"%string.
Definition edge_feat (g : graph R) (et : etype) : list (list R) :=
  edata g et !!! "feat"%string.

Definition interacts : etype := ("atom", "interacts", "atom")%string.

(** lines 67 to 84 *)
Definition load_splits (ds : string) (init_feat fg_cyc : bool) :=
  if fg_cyc then
    if init_feat then
      train ← load ("data/" +:+ ds +:+ "_train.bin");
      val ← load ("data/" +:+ ds +:+ "_val.bin");
      test ← load ("data/" +:+ ds +:+ "_test.bin");
      mret (train, val, test)
    else
      train ← load ("data/noinit_" +:+ ds +:+ "_train.bin");
      val ← load ("data/noinit_" +:+ ds +:+ "_val.bin");
      test ← load ("data/noinit_" +:+ ds +:+ "_test.bin");
      mret (train, val, test)
  else
    if init_feat then
      train ← load ("data_nocyc/nocyc_" +:+ ds +:+ "_train.bin");
      val ← load ("data_nocyc/nocyc_" +:+ ds +:+ "_val.bin");
      test ← load ("data_nocyc/nocyc_" +:+ ds +:+ "_test.bin");
      mret (train, val, test)
    else
      train ← load ("data_nocyc/nocyc_noinit_" +:+ ds +:+ "_train.bin");
      val ← load ("data_nocyc/nocyc_noinit_" +:+ ds +:+ "_val.bin");
      test ← load ("data_nocyc/nocyc_noinit_" +:+ ds +:+ "_test.bin");
      mret (train, val, test).

(** lines 140 to 156: the evaluation on the validation and test sets *)
Definition evaluate (val_gs : graph R) (val_labels : list (list R))
    (test_gs : graph R) (test_labels : list (list R))
    (log_dict : gmap string R) : M (gmap string R) :=
  emit NoGradEnter;;
  emit ModelEval;;
  let val_af := node_feat val_gs atom in
  let val_bf := edge_feat val_gs interacts in
  let val_ff := node_feat val_gs func_group in
  val_logits ← call_model val_gs val_af val_bf val_ff;
  let log_dict := <["val_rmse"%string := compute_rmse rt val_logits val_labels]> log_dict in
  let test_af := node_feat test_gs atom in
  let test_bf := edge_feat test_gs interacts in
  let test_ff := node_feat test_gs func_group in
  test_logits ← call_model test_gs test_af test_bf test_ff;
  let log_dict := <["test_rmse"%string := compute_rmse rt test_logits test_labels]> log_dict in
  emit ModelTrain;;
  emit NoGradExit;;
  mret log_dict.

(** lines 118 to 159: the body of the loop over the batches; the result is
    [n_update] afterwards.  [n_update % log_every] with [log_every = 0] is
    a [ZeroDivisionError] in Python; [get_config] sets it to 50. *)
Definition train_batch (config : Config)
    (criterion : list (list R) -> list (list R) -> list (list R)) (iters : nat)
    (val_gs : graph R) (val_labels : list (list R))
    (test_gs : graph R) (test_labels : list (list R))
    (epoch i : nat) (gs : graph R) (labels : list (list R)) (n_update : nat) : M nat :=
  let af := node_feat gs atom in
  let bf := edge_feat gs interacts in
  let ff := node_feat gs func_group in
  logits ← call_model gs af bf ff;
  let loss := Tensor.mean (criterion logits labels) in
  emit ZeroGrad;;
  emit (Backward loss);;
  emit OptStep;;
  emit (SchedulerStep (radd (of_nat epoch) (rdiv (of_nat i) (of_nat iters))));;
  let log_dict : gmap string R := ∅ in
  lr ← read (param_group_lr rt);
  let log_dict := <["lr"%string := lr]> log_dict in
  let log_dict := <["loss"%string := loss]> log_dict in
  let log_dict := <["train_rmse"%string := compute_rmse rt logits labels]> log_dict in
  let n_update := n_update + 1 in
  log_dict ← (if n_update mod log_every (log config) =? 0
              then evaluate val_gs val_labels test_gs test_labels log_dict
              else mret log_dict);
  emit (WandbLog log_dict);;
  sd ← read (get_state_dict rt);
  dir ← read (wandb_run_dir rt);
  emit (TorchSave sd (join dir "model.pt"));;
  mret n_update.

(** lines 117 to 159: one pass over the loader *)
Definition train_epoch (config : Config)
    (criterion : list (list R) -> list (list R) -> list (list R)) (iters : nat)
    (train_dl : TestGraphDataLoader R)
    (val_gs : graph R) (val_labels : list (list R))
    (test_gs : graph R) (test_labels : list (list R))
    (epoch : nat) (n_update : nat) : M nat :=
  batches ← dl_iter train_dl;
  for_fold (enumerate batches)
    (fun '(i, (gs, labels)) n_update =>
       train_batch config criterion iters val_gs val_labels test_gs test_labels
         epoch i gs labels n_update)
    n_update.

(** What lines 62 to 112 of [main] leave in scope for the loop. *)
Record Env := mkEnv {
  env_config : Config;
  env_train_dl : TestGraphDataLoader R;
  env_val_gs : graph R;
  env_val_labels : list (list R);
  env_test_gs : graph R;
  env_test_labels : list (list R);
  env_criterion : list (list R) -> list (list R) -> list (list R)
}.

(** [main], lines 62 to 112: configuration, data, model, optimizer,
    scheduler, loss and the tracking run. *)
Definition setup (ds : string) (init_feat fg_cyc : bool) (num_neurons : list nat)
    (input_norm : string) (nef_dp reg_dp : Q) (device : string) : M Env :=
  let DEBUG := false in
  let config := get_config ds init_feat fg_cyc num_neurons input_norm nef_dp reg_dp in
  let n_workers := if DEBUG then 1 else n_procs (train config) in
  '(train_gs, train_info, (val_gs, val_info), (test_gs, test_info))
      ← load_splits ds init_feat fg_cyc;
  let train_ds := mkDataset train_gs (train_info !!! "y"%string) in
  let train_dl := mkDataLoader train_ds n_workers (bs (train config)) true in
  let val_gs := dgl_batch rt val_gs in
  let val_labels : list (list R) := val_info !!! "y"%string in
  let test_gs := dgl_batch rt test_gs in
  let test_labels : list (list R) := test_info !!! "y"%string in
  emit (ModelInit (shape1 val_labels) 100 7 100 (model config) device);;
  emit (AdamPInit (lr (train config)));;
  emit (SchedulerInit (T_0 (train config)));;
  let criterion := MSELoss RedNone in
  emit (WandbInit ("NODEREADOUT-" +:+ Train.ds (train config))
                  (group (wandb config)) config);;
  dir ← read (wandb_run_dir rt);
  emit (ToYaml (join dir "model_config.yaml"));;
  emit WandbWatch;;
  mret (mkEnv config train_dl val_gs val_labels test_gs test_labels criterion).

(** [main], lines 114 to 161: the loop over the epochs and the end of the
    run. *)
Definition training (env : Env) : M unit :=
  let n_update := 0 in
  let iters := dl_len rt (env_train_dl env) in
  n_update ← for_fold (seq 0 (epochs (train (env_config env))))
               (train_epoch (env_config env) (env_criterion env) iters (env_train_dl env)
                  (env_val_gs env) (env_val_labels env)
                  (env_test_gs env) (env_test_labels env))
               n_update;
  emit RunFinish.

(** [main] *)
Definition main (ds : string) (init_feat fg_cyc : bool) (num_neurons : list nat)
    (input_norm : string) (nef_dp reg_dp : Q) (device : string) : M unit :=
  env ← setup ds init_feat fg_cyc num_neurons input_norm nef_dp reg_dp device;
  training env.

(** *** The entry point *)
Record Args := mkArgs {
  arg_ds : string;
  arg_init_feat : bool;
  arg_fg_cyc : bool;
  arg_num_neurons : list nat;
  arg_input_norm : string;
  arg_nef_dp : Q;
  arg_reg_dp : Q;
  arg_device : string
}.

(** the block under [if __name__ == '__main__'], from the parsed arguments *)
Definition script (args : Args) : M unit :=
  for_fold (seq 0 3)
    (fun _ _ => main (arg_ds args) (arg_init_feat args) (arg_fg_cyc args)
                  (arg_num_neurons args) (arg_input_norm args) (arg_nef_dp args)
                  (arg_reg_dp args) (arg_device args))
    tt.
End Script.

Arguments mkOutcome {R rt A} _ _ _.
Arguments value {R rt A} _.
Arguments state {R rt A} _.
Arguments events {R rt A} _.
Arguments ret {R rt A} _ _.
Arguments bind {R rt A B} _ _ _.
Arguments for_fold {R rt A St} _ _ _ _.
Arguments enumerate {A} _.
Arguments env_config {R} _.
Arguments env_train_dl {R} _.
Arguments env_val_gs {R} _.
Arguments env_val_labels {R} _.
Arguments env_test_gs {R} _.
Arguments env_test_labels {R} _.
Arguments env_criterion {R} _.

(** [iters = len(train_dl)] of the run of [main] begun in state [s] *)
Definition run_iters {R : Type} `{Scalar R} (rt : Runtime R)
    (ds : string) (init_feat fg_cyc : bool) (num_neurons : list nat)
    (input_norm : string) (nef_dp reg_dp : Q) (device : string) (s : RT_state rt) : nat :=
  dl_len rt (env_train_dl
    (value (setup rt ds init_feat fg_cyc num_neurons input_norm nef_dp reg_dp device s))).

(** One execution of the body of the loop: the epoch, the index and the
    contents of the batch, [n_update] before it, and the state of the
    runtime it starts in. *)
Record batch_run {R : Type} (rt : Runtime R) := mkBatchRun {
  br_epoch : nat;
  br_i : nat;
  br_gs : graph R;
  br_labels : list (list R);
  br_n_update : nat;
  br_state : RT_state rt
}.

Arguments mkBatchRun {R rt} _ _ _ _ _ _.
Arguments br_epoch {R rt} _.
Arguments br_i {R rt} _.
Arguments br_gs {R rt} _.
Arguments br_labels {R rt} _.
Arguments br_n_update {R rt} _.
Arguments br_state {R rt} _.

Definition run_batch {R : Type} `{Scalar R} (rt : Runtime R) (env : Env (R:=R))
    (b : batch_run rt) : outcome rt nat :=
  train_batch rt (env_config env) (env_criterion env) (dl_len rt (env_train_dl env))
    (env_val_gs env) (env_val_labels env) (env_test_gs env) (env_test_labels env)
    (br_epoch b) (br_i b) (br_gs b) (br_labels b) (br_n_update b) (br_state b).

(** the predictions of the model on the batch, in the state the batch
    starts in *)
Definition batch_logits {R : Type} (rt : Runtime R) (b : batch_run rt) : list (list R) :=
  model_call rt (br_gs b) (node_feat (br_gs b) atom) (edge_feat (br_gs b) interacts)
    (node_feat (br_gs b) func_group) (br_state b).

(** [b] is batch [br_i b] of an iteration over the loader, and [n_update]
    counts the batches before it *)
Definition batch_of_run {R : Type} (rt : Runtime R) (dl : TestGraphDataLoader R)
    (n_epochs : nat) (b : batch_run rt) : Prop :=
  br_epoch b < n_epochs
  /\ br_i b < dl_len rt dl
  /\ br_n_update b = br_epoch b * dl_len rt dl + br_i b
  /\ exists s0, (br_gs b, br_labels b) = dl_batch rt dl s0 (br_i b).

(** runs a straight-line piece of the script on a symbolic state *)
Ltac run_script :=
  unfold mbind, M_bind, mret, M_ret; cbn -[Nat.modulo insert dom union].

(** *** What a run looks like from outside

    An event without what depends on the state of the runtime: the paths
    read, the argument of the scheduler and the keys logged stay. *)
Inductive tag (R : Type) :=
| TLoadGraphs (path : string)
| TModelInit
| TAdamPInit (lr : Q)
| TSchedulerInit (T_0 : nat)
| TWandbInit
| TToYaml
| TWandbWatch
| TModelCall
| TZeroGrad
| TBackward
| TOptStep
| TSchedulerStep (epoch : R)
| TNoGradEnter
| TNoGradExit
| TModelEval
| TModelTrain
| TWandbLog (keys : gset string)
| TTorchSave
| TRunFinish.

Arguments TLoadGraphs {R} _.
Arguments TModelInit {R}.
Arguments TAdamPInit {R} _.
Arguments TSchedulerInit {R} _.
Arguments TWandbInit {R}.
Arguments TToYaml {R}.
Arguments TWandbWatch {R}.
Arguments TModelCall {R}.
Arguments TZeroGrad {R}.
Arguments TBackward {R}.
Arguments TOptStep {R}.
Arguments TSchedulerStep {R} _.
Arguments TNoGradEnter {R}.
Arguments TNoGradExit {R}.
Arguments TModelEval {R}.
Arguments TModelTrain {R}.
Arguments TWandbLog {R} _.
Arguments TTorchSave {R}.
Arguments TRunFinish {R}.

Definition skeleton {R SD : Type} (e : event R SD) : tag R :=
  match e with
  | LoadGraphs p => TLoadGraphs p
  | ModelInit _ _ _ _ _ _ => TModelInit
  | AdamPInit lr => TAdamPInit lr
  | SchedulerInit T_0 => TSchedulerInit T_0
  | WandbInit _ _ _ => TWandbInit
  | ToYaml _ => TToYaml
  | WandbWatch => TWandbWatch
  | ModelCall _ _ _ _ => TModelCall
  | ZeroGrad => TZeroGrad
  | Backward _ => TBackward
  | OptStep => TOptStep
  | SchedulerStep x => TSchedulerStep x
  | NoGradEnter => TNoGradEnter
  | NoGradExit => TNoGradExit
  | ModelEval => TModelEval
  | ModelTrain => TModelTrain
  | WandbLog d => TWandbLog (dom d)
  | TorchSave _ _ => TTorchSave
  | RunFinish => TRunFinish
  end.

(** Projections of a trace. *)
Definition backward_loss {R SD : Type} (e : event R SD) : option R :=
  match e with Backward l => Some l | _ => None end.

Definition logged {R SD : Type} (e : event R SD) : option (gmap string R) :=
  match e with WandbLog d => Some d | _ => None end.

Definition saved {R SD : Type} (e : event R SD) : option (SD * string) :=
  match e with TorchSave sd p => Some (sd, p) | _ => None end.


Definition loaded_path {R : Type} (t : tag R) : option string :=
  match t with TLoadGraphs p => Some p | _ => None end.

Definition scheduler_period {R : Type} (t : tag R) : option nat :=
  match t with TSchedulerInit T_0 => Some T_0 | _ => None end.

(** optimizer and scheduler steps only *)
Definition opt_sched {R : Type} (t : tag R) : option (tag R) :=
  match t with
  | TOptStep => Some t
  | TSchedulerStep _ => Some t
  | _ => None
  end.


(** optimizer steps and checkpoints only *)
Definition step_save {R : Type} (t : tag R) : option (tag R) :=
  match t with
  | TOptStep | TTorchSave => Some t
  | _ => None
  end.

(** the beginning and the end of the tracking run *)
Definition run_bounds {R : Type} (t : tag R) : option (tag R) :=
  match t with
  | TWandbInit | TRunFinish => Some t
  | _ => None
  end.

(** *** The training loop as the design document has it (4.3)

    A [TRAIN_STEP] per batch; at every [log_every]-th global step an
    [EVAL_STEP]; then [LOG] and [CHECKPOINT]. *)
Section StateMachine.
Context {R : Type} `{Scalar R}.

(** [epoch + batch_index / num_batches_in_epoch] *)
Definition fractional_epoch (iters epoch i : nat) : R :=
  radd (of_nat epoch) (rdiv (of_nat i) (of_nat iters)).

Definition TRAIN_STEP (iters epoch i : nat) : list (tag R) :=
  [TModelCall; TZeroGrad; TBackward; TOptStep;
   TSchedulerStep (fractional_epoch iters epoch i)].

Definition EVAL_STEP : list (tag R) :=
  [TNoGradEnter; TModelEval; TModelCall; TModelCall; TModelTrain; TNoGradExit].

Definition train_keys : gset string := {[ "lr"; "loss"; "train_rmse" ]}%string.
Definition eval_keys : gset string := {[ "val_rmse"; "test_rmse" ]}%string.

Definition LOG (evaluated : bool) : list (tag R) :=
  [TWandbLog (if evaluated then train_keys ∪ eval_keys else train_keys)].

Definition CHECKPOINT : list (tag R) := [TTorchSave].

(** the global step [k] (counted from 1), batch [i] of epoch [epoch] *)
Definition step_tags (log_every iters epoch i k : nat) : list (tag R) :=
  let evaluated := k mod log_every =? 0 in
  TRAIN_STEP iters epoch i
  ++ (if evaluated then EVAL_STEP else [])
  ++ LOG evaluated ++ CHECKPOINT.

Definition epoch_tags (log_every iters epoch : nat) : list (tag R) :=
  flat_map (fun i => step_tags log_every iters epoch i (epoch * iters + i + 1)) (seq 0 iters).

Definition loop_tags (log_every iters n_epochs : nat) : list (tag R) :=
  flat_map (epoch_tags log_every iters) (seq 0 n_epochs).

(** lines 67 to 84 as the design document has them (6): the directory and
    the prefix of the file variant the two flags select *)
Definition variant (init_feat fg_cyc : bool) : string :=
  match fg_cyc, init_feat with
  | true, true => "data/"
  | true, false => "data/noinit_"
  | false, true => "data_nocyc/nocyc_"
  | false, false => "data_nocyc/nocyc_noinit_"
  end.

Definition split_paths (ds : string) (init_feat fg_cyc : bool) : list string :=
  map (fun split => variant init_feat fg_cyc +:+ ds +:+ "_" +:+ split +:+ ".bin")
      ["train"; "val"; "test"]%string.

Definition setup_tags (ds : string) (init_feat fg_cyc : bool) : list (tag R) :=
  map TLoadGraphs (split_paths ds init_feat fg_cyc)
  ++ [TModelInit; TAdamPInit (1 # 1000)%Q; TSchedulerInit 50; TWandbInit; TToYaml;
      TWandbWatch].

(** the squared errors summed row by row, over the number of elements of a
    tensor of [B] rows and [D] columns *)
Definition mean_of_squared_errors (B D : nat) (pred target : list (list R)) : R :=
  rdiv
    (foldl (fun acc '(p, y) =>
              foldl (fun acc '(a, b) => radd acc (rmul (rsub a b) (rsub a b))) acc (zip p y))
           (of_nat 0) (zip pred target))
    (of_nat (B * D)).

(** the calls of one run of [main], [iters] batches to the epoch *)
Definition run_tags (ds : string) (init_feat fg_cyc : bool) (iters : nat) : list (tag R) :=
  setup_tags ds init_feat fg_cyc ++ loop_tags 50 iters 2400 ++ [TRunFinish].
End StateMachine.

End Train.

(** ** Small instances, to run the definitions *)

Module Demo.
Import Networks Train.

(** the sizes of the published configuration, with hidden width 64 *)
Definition wide_net : Net :=
  Net_init 1 100 7 100 [128; 64] "batch" 0 0 64 64 64 default_activation.

(** atoms of width 2, bonds of width 1, functional groups of width 3 *)
Definition net : Net := Net_init 1 2 1 3 [4] "batch" 0 0 2 1 3 default_activation.

(** every output entry is the sum of the input row *)
Definition tile (d : nat) (x : list (list Q)) : list (list Q) :=
  map (fun row => replicate d (Tensor.rsum row)) x.

(** message passing that leaves a trace ['m'] on the atoms *)
Definition modules : Modules Q :=
  {| PLinear := unit; PMLP := unit; PHyperMPNN := unit; PReadout := unit;
     Linear_call cfg _ x := tile (out_features cfg) x;
     MLP_call cfg _ x := tile (output_dim cfg) x;
     HyperMPNN_call cfg _ g nf ef ff :=
       (store_set_ndata atom "m" nf (Networks.data g), (nf, ef, ff));
     WeightedSumAndMax_call cfg _ g feats nt := (Networks.data g, feats) |}.

Definition params : NetParams modules := mkNetParams modules tt tt tt tt tt tt tt.

Definition readout_params : ReadoutParams Q :=
  {| score := Tensor.rsum; empty_max := 0%Q |}.

Definition spec_params : NetParams (with_spec_readout modules) :=
  mkNetParams (with_spec_readout modules) tt tt tt readout_params readout_params tt tt.

(** a batch of two molecules: two atoms and one group, then one atom and no
    group *)
Definition nf : list (list Q) := [[1; 2]; [3; 4]; [5; 6]]%Q.
Definition ef : list (list Q) := [[1]; [1]]%Q.
Definition ff : list (list Q) := [[1; 0; 2]]%Q.

Definition g : graph Q :=
  mkGraph [2; 1] [1; 0] {[ interacts := [(0, 1); (1, 0)] ]}
    (mkStore {[ "feat"%string := nf ]} {[ "feat"%string := ff ]}
             {[ interacts := {[ "feat"%string := ef ]} ]}).

(** a runtime that counts the calls made so far *)
Definition rt : Runtime Q :=
  {| RT_state := nat;
     RT_state_dict := nat;
     react := fun _ s => S s;
     load_graphs := fun _ _ => ([g; g], {[ "y"%string := [[1]; [2]]%Q ]});
     dgl_batch := fun gs => hd g gs;
     dl_len := fun _ => 2;
     dl_batch := fun _ _ i => (g, [[of_nat i]; [0%Q]]);
     model_call := fun _ nf _ _ s => [[Tensor.rsum (Tensor.flatten nf)]; [of_nat s]];
     param_group_lr := fun _ => (1 # 1000)%Q;
     compute_rmse := fun x y => Tensor.mean (squared_error x y);
     get_state_dict := fun s => s;
     wandb_run_dir := fun _ => "wandb/run-1/files"%string |}.

Definition config : Config := get_config "freesolv" false false [128; 64] "batch" 0 0.

(** two epochs of two batches, evaluated at every third step *)
Definition small_env : Env (R:=Q) :=
  mkEnv (mkConfig (model config) (data config)
           (mkTrainConfig "freesolv" 3 (1 # 1000)%Q 128 2 50)
           (mkLogConfig 3) (wandb config))
        (mkDataLoader (mkDataset [g; g] [[1]; [2]]%Q) 3 128 true)
        g [[1]]%Q g [[2]]%Q (MSELoss RedNone).

(** the defaults of the command line *)
Definition args : Args :=
  mkArgs "freesolv" false false [128; 64] "batch" 0 0 "cuda:1".

End Demo.

(** ** Further observations of the forward pass and of a run *)

Module Observe.
Import Networks Train.

(** The modules [M] with the edge embeddings that leave the message passing
    replaced by [f] of them. *)
Definition with_edge_output {R : Type} (f : list (list R) -> list (list R))
    (M : Modules R) : Modules R :=
  {| PLinear := PLinear M; PMLP := PMLP M; PHyperMPNN := PHyperMPNN M;
     PReadout := PReadout M;
     Linear_call := Linear_call M; MLP_call := MLP_call M;
     HyperMPNN_call cfg p g nf ef ff :=
       let '(st, (unf, uef, uff)) := HyperMPNN_call M cfg p g nf ef ff in
       (st, (unf, f uef, uff));
     WeightedSumAndMax_call := WeightedSumAndMax_call M |}.

Definition params_with_edge_output {R : Type} (f : list (list R) -> list (list R))
    {M : Modules R} (w : NetParams M) : NetParams (with_edge_output f M) :=
  mkNetParams (with_edge_output f M) (node_encoder_w w) (edge_encoder_w w) (fg_encoder_w w)
    (node_readout_w w) (fg_readout_w w) (reg_w w) (gnn_l_w w).

(** Projections of a trace. *)
Definition is_model_eval {R : Type} (t : tag R) : option unit :=
  match t with TModelEval => Some tt | _ => None end.

Definition is_model_call {R : Type} (t : tag R) : option unit :=
  match t with TModelCall => Some tt | _ => None end.

Definition scheduler_arg {R : Type} (t : tag R) : option R :=
  match t with TSchedulerStep x => Some x | _ => None end.

Definition saved_path {R SD : Type} (e : event R SD) : option string :=
  match e with TorchSave _ p => Some p | _ => None end.

Definition is_wandb_init {R SD : Type} (e : event R SD) : bool :=
  match e with WandbInit _ _ _ => true | _ => false end.

(** *** Gradient mode and training mode along a trace

    [torch.no_grad()] switches the recording of gradients off until its
    block ends; [model.eval()] and [model.train()] switch the model between
    its two modes.  Both are on when a run starts. *)
Record modes := mkModes { grad_enabled : bool; training_mode : bool }.

Definition initial_modes : modes := mkModes true true.

(** The modes after a call, or [None] when the call is made in the wrong
    modes: a step of the training (gradients reset, backward pass, optimizer
    and scheduler step), a log and a save need both on; a forward pass needs
    both on or both off; [no_grad] blocks do not nest. *)
Definition mode_step {R : Type} (m : modes) (t : tag R) : option modes :=
  match t with
  | TNoGradEnter => if grad_enabled m then Some (mkModes false (training_mode m)) else None
  | TNoGradExit => if grad_enabled m then None else Some (mkModes true (training_mode m))
  | TModelEval => Some (mkModes (grad_enabled m) false)
  | TModelTrain => Some (mkModes (grad_enabled m) true)
  | TModelCall => if Bool.eqb (grad_enabled m) (training_mode m) then Some m else None
  | TZeroGrad | TBackward | TOptStep | TSchedulerStep _ | TWandbLog _ | TTorchSave =>
      if grad_enabled m && training_mode m then Some m else None
  | _ => Some m
  end.

Fixpoint modes_after {R : Type} (m : modes) (ts : list (tag R)) : option modes :=
  match ts with
  | [] => Some m
  | t :: ts' =>
      match mode_step m t with
      | Some m' => modes_after m' ts'
      | None => None
      end
  end.

Definition logged_keys {R : Type} (t : tag R) : option (gset string) :=
  match t with TWandbLog keys => Some keys | _ => None end.

(** the calls of the setup: reads of data files and constructions *)
Definition setup_call {R : Type} (t : tag R) : option (tag R) :=
  match t with
  | TLoadGraphs _ | TModelInit | TAdamPInit _ | TSchedulerInit _ | TWandbInit
  | TToYaml | TWandbWatch => Some t
  | _ => None
  end.

(** The batches of one epoch: batch [i] of the pass over the loader begun in
    state [s0], for the indices [is] in turn, each run in the state and
    with the counter the one before left. *)
Fixpoint epoch_batches {R : Type} `{Scalar R} (rt : Runtime R) (env : Env (R:=R))
    (epoch : nat) (s0 : RT_state rt) (indices : list nat) (n_update : nat)
    (s : RT_state rt) : list (batch_run rt) :=
  match indices with
  | [] => []
  | i :: rest =>
      let b := mkBatchRun epoch i (dl_batch rt (env_train_dl env) s0 i).1
                 (dl_batch rt (env_train_dl env) s0 i).2 n_update s in
      b :: epoch_batches rt env epoch s0 rest (value (run_batch rt env b))
             (state (run_batch rt env b))
  end.

(** each batch of the list starts in the state the one before ended in *)
Fixpoint chained {R : Type} `{Scalar R} (rt : Runtime R) (env : Env (R:=R))
    (s : RT_state rt) (bs : list (batch_run rt)) : Prop :=
  match bs with
  | [] => True
  | b :: rest => br_state b = s /\ chained rt env (state (run_batch rt env b)) rest
  end.

(** a runtime whose loader has no batch *)
Definition empty_rt : Runtime Q :=
  {| RT_state := nat;
     RT_state_dict := nat;
     react := fun _ s => S s;
     load_graphs := fun _ _ => ([], {[ "y"%string := [[0]]%Q ]});
     dgl_batch := fun gs => hd Demo.g gs;
     dl_len := fun _ => 0;
     dl_batch := fun _ _ _ => (Demo.g, []);
     model_call := fun _ _ _ _ _ => [];
     param_group_lr := fun _ => (1 # 1000)%Q;
     compute_rmse := fun _ _ => 0%Q;
     get_state_dict := fun s => s;
     wandb_run_dir := fun _ => "wandb/run-0/files"%string |}.

End Observe.

(** ** The atom-atom edge steps of the message passing

    Class [HyperMPNN] ([molhgcn.hypergraphnetwork.hypermessage]) is not among
    the sources; [Net.__init__] only builds its [MLP] blocks.  What the blocks
    [em] and [am] are applied to is taken from the design document. *)
Module MessagePassing.
Import Networks.

Section AtomAtom.
Context {R : Type}.

(** Modelled from the spec: the message input of an atom-atom edge, the
    source atom embedding, the destination atom embedding and the current edge
    embedding, concatenated. *)
Definition edge_message (unf : list (list R)) (bond : nat * nat) (e : list R) : list R :=
  (unf !!! bond.1) ++ (unf !!! bond.2) ++ e.

(** Modelled from the spec: the message inputs of all atom-atom edges of a
    batch, one row for each edge. *)
Definition edge_messages (g : graph R) (unf uef : list (list R)) : list (list R) :=
  zip_with (edge_message unf) (edges g !!! Train.interacts) uef.

(** the parameters of the two blocks applied to the atom-atom edges *)
Record EdgeParams (M : Modules R) := mkEdgeParams {
  em_w : PMLP M;
  am_w : PMLP M
}.

(** Modelled from the spec: step 1, the learned edge update of the message
    inputs. *)
Definition edge_update (M : Modules R) (h : HyperMPNN) (p : EdgeParams M)
    (g : graph R) (unf uef : list (list R)) : list (list R) :=
  MLP_call M (em h) (em_w M p) (edge_messages g unf uef).

(** Modelled from the spec: step 2, the gate, a learned function of the same
    concatenated input. *)
Definition edge_gate (M : Modules R) (h : HyperMPNN) (p : EdgeParams M)
    (g : graph R) (unf uef : list (list R)) : list (list R) :=
  MLP_call M (am h) (am_w M p) (edge_messages g unf uef).

(** the end points of every atom-atom edge are atoms of the batch *)
Definition endpoints_in_range (g : graph R) (n : nat) : Prop :=
  Forall (fun bond : nat * nat => bond.1 < n /\ bond.2 < n) (edges g !!! Train.interacts).

(** Modelled from the spec: a feed-forward block maps every row of
    [input_dim] features to a row of [output_dim] features. *)
Definition MLP_keeps_shapes (M : Modules R) : Prop :=
  forall (cfg : MLP) (p : PMLP M) (x : list (list R)),
    Tensor.width_is (input_dim cfg) x ->
    length (MLP_call M cfg p x) = length x
    /\ Tensor.width_is (output_dim cfg) (MLP_call M cfg p x).
End AtomAtom.

Arguments em_w {R M} _.
Arguments am_w {R M} _.
Arguments mkEdgeParams {R} M _ _.
End MessagePassing.


(** * Properties *)

(** ** The constructor of [Net] *)

(** C1, as the code has it: the gate network of the membership edges, [fam],
    is declared with the input dimension [2 * (node_hidden_dim +
    fg_hidden_dim)] and the output dimension [fg_hidden_dim], a gate of
    [fg_hidden_dim] components for every membership edge, which is a single
    scalar exactly when [fg_hidden_dim = 1]; its hidden activation is
    the identity. *)
Theorem fam_gate_dimension_and_activation
    (out_dim node_in_dim edge_in_dim fg_in_dim : nat)
    (num_neurons : list nat) (input_norm : string) (nef_dp reg_dp : Q)
    (node_hidden_dim edge_hidden_dim fg_hidden_dim : nat) (activation : string) :
  let net := Networks.Net_init out_dim node_in_dim edge_in_dim fg_in_dim num_neurons
               input_norm nef_dp reg_dp node_hidden_dim edge_hidden_dim fg_hidden_dim
               activation in
  let fam := Networks.fam (Networks.gnn_l net) in
  Networks.output_dim fam = fg_hidden_dim
  /\ (Networks.output_dim fam = 1 <-> fg_hidden_dim = 1)
  /\ Networks.input_dim fam = 2 * (node_hidden_dim + fg_hidden_dim)
  /\ Networks.hidden_act fam = Some "Identity"%string.
Proof. cbn. tauto. Qed.

(** C8: the gate network of the atom-atom edges, [am], is declared with one
    output, with the input dimension of the edge update [em], which is
    [2 * node_hidden_dim + edge_hidden_dim], and with the identity as hidden
    activation.  With the edge steps of the design document, the gate and the
    edge update are computed from the same tensor of message inputs; this
    tensor has one row for each atom-atom edge, and the row of edge [k], from
    atom [u] to atom [v], is the embedding of [u], the embedding of [v] and
    the embedding of the edge, in this order; with embeddings of the widths
    [node_hidden_dim] and [edge_hidden_dim] every such row has the input
    dimension declared for [am] and [em], and a block that maps rows of its
    input dimension to rows of its output dimension yields one gate for each
    edge, a single scalar. *)
Theorem am_scalar_gate_on_edge_input
    (out_dim node_in_dim edge_in_dim fg_in_dim : nat)
    (num_neurons : list nat) (input_norm : string) (nef_dp reg_dp : Q)
    (node_hidden_dim edge_hidden_dim fg_hidden_dim : nat) (activation : string) :
  let net := Networks.Net_init out_dim node_in_dim edge_in_dim fg_in_dim num_neurons
               input_norm nef_dp reg_dp node_hidden_dim edge_hidden_dim fg_hidden_dim
               activation in
  let am := Networks.am (Networks.gnn_l net) in
  let em := Networks.em (Networks.gnn_l net) in
  Networks.output_dim am = 1
  /\ Networks.hidden_act am = Some "Identity"%string
  /\ Networks.input_dim am = 2 * node_hidden_dim + edge_hidden_dim
  /\ Networks.input_dim am = Networks.input_dim em
  /\ (forall (R : Type) (src dst e : list R),
        length src = node_hidden_dim ->
        length dst = node_hidden_dim ->
        length e = edge_hidden_dim ->
        length (src ++ dst ++ e) = Networks.input_dim am)
  /\ (forall (R : Type) (M : Networks.Modules R) (p : MessagePassing.EdgeParams M)
             (g : Networks.graph R) (unf uef : list (list R)),
        let bonds := Networks.edges g !!! Train.interacts in
        let inputs := MessagePassing.edge_messages g unf uef in
        let gate := MessagePassing.edge_gate M (Networks.gnn_l net) p g unf uef in
        gate = Networks.MLP_call M am (MessagePassing.am_w p) inputs
        /\ MessagePassing.edge_update M (Networks.gnn_l net) p g unf uef
           = Networks.MLP_call M em (MessagePassing.em_w p) inputs
        /\ length inputs = Nat.min (length bonds) (length uef)
        /\ (forall k u v src dst e,
              bonds !! k = Some (u, v) ->
              unf !! u = Some src -> unf !! v = Some dst -> uef !! k = Some e ->
              inputs !! k = Some (src ++ dst ++ e))
        /\ (Tensor.width_is node_hidden_dim unf ->
            Tensor.width_is edge_hidden_dim uef ->
            MessagePassing.endpoints_in_range g (length unf) ->
            Tensor.width_is (Networks.input_dim am) inputs
            /\ (MessagePassing.MLP_keeps_shapes M ->
                length gate = Nat.min (length bonds) (length uef)
                /\ Tensor.width_is 1 gate
                /\ (forall k, k < Nat.min (length bonds) (length uef) ->
                      exists a, gate !! k = Some [a])))).
Proof.
  intros net am em.
  assert (Hdim : Networks.input_dim am = node_hidden_dim + node_hidden_dim + edge_hidden_dim)
    by (cbn; lia).
  split; [reflexivity|]. split; [reflexivity|]. split; [cbn; lia|]. split; [reflexivity|].
  split; [intros R src dst e Hs Hd He; rewrite Hdim, !length_app; lia|].
  intros R M p g unf uef bonds inputs gate.
  split; [reflexivity|]. split; [reflexivity|].
  assert (Hlen : length inputs = Nat.min (length bonds) (length uef)).
  { unfold inputs, MessagePassing.edge_messages. by rewrite length_zip_with. }
  split; [exact Hlen|]. split.
  - intros k u v src dst e Hk Hu Hv He.
    unfold inputs, MessagePassing.edge_messages, MessagePassing.edge_message.
    fold bonds. rewrite lookup_zip_with, Hk, He. cbn.
    by rewrite (list_lookup_total_correct _ _ _ Hu), (list_lookup_total_correct _ _ _ Hv).
  - intros Hn He Hr.
    assert (Hw : Tensor.width_is (Networks.input_dim am) inputs).
    { rewrite Hdim. unfold inputs, MessagePassing.edge_messages.
      unfold MessagePassing.endpoints_in_range in Hr.
      fold bonds in Hr |- *. clearbody bonds. clear -Hn He Hr.
      revert uef He. induction Hr as [|[u v] bonds [Hu Hv] Hr IH]; intros uef He;
        [constructor|].
      destruct He as [|e uef Hle He]; [constructor|].
      cbn [zip_with]. constructor; [|by apply IH].
      unfold MessagePassing.edge_message. cbn [fst snd] in *.
      destruct (lookup_lt_is_Some_2 unf u Hu) as [src Hsrc].
      destruct (lookup_lt_is_Some_2 unf v Hv) as [dst Hdst].
      rewrite (list_lookup_total_correct _ _ _ Hsrc), (list_lookup_total_correct _ _ _ Hdst).
      unfold Tensor.width_is in Hn.
      pose proof (Forall_lookup_1 _ _ _ _ Hn Hsrc) as Ls.
      pose proof (Forall_lookup_1 _ _ _ _ Hn Hdst) as Ld.
      cbn beta in Ls, Ld. rewrite !length_app. lia. }
    split; [exact Hw|].
    intros Hmlp.
    destruct (Hmlp am (MessagePassing.am_w p) inputs Hw) as [Hl Hone].
    change (Networks.MLP_call M am (MessagePassing.am_w p) inputs) with gate in Hl, Hone.
    change (Networks.output_dim am) with 1 in Hone.
    rewrite Hlen in Hl.
    split; [exact Hl|]. split; [exact Hone|].
    intros k Hk. rewrite <- Hl in Hk.
    destruct (lookup_lt_is_Some_2 gate k Hk) as [row Hrow].
    pose proof (Forall_lookup_1 _ _ _ _ Hone Hrow) as Lr. cbn beta in Lr.
    destruct row as [|a [|b row]]; cbn in Lr; try lia.
    exists a. exact Hrow.
Qed.

(** The statement of C1 fails at the published sizes: with
    [fg_hidden_dim = 64] the gate of a membership edge has 64 components. *)
Lemma fam_output_dim_is_not_one :
  ~ (Networks.output_dim (Networks.fam (Networks.gnn_l Demo.wide_net)) = 1
     /\ Networks.hidden_act (Networks.fam (Networks.gnn_l Demo.wide_net))
        = Some "Identity"%string).
Proof. cbn. intros [E _]. discriminate E. Qed.

(** C8 on the two bonds of a batch with atoms of width 2 and bonds of
    width 1. *)
Lemma am_scalar_gate_on_edge_input_witness :
  (Tensor.width_is 2 (Demo.tile 2 Demo.nf)
   /\ Tensor.width_is 1 (Demo.tile 1 Demo.ef)
   /\ MessagePassing.endpoints_in_range Demo.g (length (Demo.tile 2 Demo.nf))
   /\ MessagePassing.MLP_keeps_shapes Demo.modules)
  /\ (Networks.edges Demo.g !!! Train.interacts) !! 0 = Some (0, 1)
  /\ MessagePassing.edge_messages Demo.g (Demo.tile 2 Demo.nf) (Demo.tile 1 Demo.ef) !! 0
     = Some [3; 3; 7; 7; 1]%Q
  /\ Tensor.width_is 1
       (MessagePassing.edge_gate Demo.modules (Networks.gnn_l Demo.net)
          (MessagePassing.mkEdgeParams Demo.modules tt tt)
          Demo.g (Demo.tile 2 Demo.nf) (Demo.tile 1 Demo.ef)).
Proof.
  assert (Hn : Tensor.width_is 2 (Demo.tile 2 Demo.nf)) by (repeat constructor).
  assert (He : Tensor.width_is 1 (Demo.tile 1 Demo.ef)) by (repeat constructor).
  assert (Hr : MessagePassing.endpoints_in_range Demo.g (length (Demo.tile 2 Demo.nf))).
  { unfold MessagePassing.endpoints_in_range.
    change (Networks.edges Demo.g !!! Train.interacts) with [(0, 1); (1, 0)].
    repeat constructor. }
  assert (Hm : MessagePassing.MLP_keeps_shapes Demo.modules).
  { intros cfg p x _. cbn. unfold Demo.tile. split; [apply length_map|].
    apply Forall_map, Forall_forall. intros row _. apply length_replicate. }
  pose proof (am_scalar_gate_on_edge_input 1 2 1 3 [4] "batch" 0%Q 0%Q 2 1 3
                Networks.default_activation) as (_ & _ & _ & _ & _ & Hedge).
  destruct (Hedge Q Demo.modules (MessagePassing.mkEdgeParams Demo.modules tt tt)
              Demo.g (Demo.tile 2 Demo.nf) (Demo.tile 1 Demo.ef))
    as (_ & _ & _ & Hrow & Hshape).
  destruct (Hshape Hn He Hr) as [_ Hgate]. destruct (Hgate Hm) as (_ & Hone & _).
  split; [split; [exact Hn | split; [exact He | split; [exact Hr | exact Hm]]]|].
  split; [reflexivity|].
  split; [apply (Hrow 0 0 1 [3; 3]%Q [7; 7]%Q [1]%Q); reflexivity|].
  exact Hone.
Defined.

(** ** The forward pass of [Net] *)

Section ReadoutFacts.
Import Networks.
Context {R : Type} {SR : Scalar R}.

Lemma Forall_zip_with_app (a b : nat) (x y : list (list R)) :
  Tensor.width_is a x -> Tensor.width_is b y ->
  Tensor.width_is (a + b) (Tensor.cat_last x y).
Proof.
  unfold Tensor.width_is, Tensor.cat_last. intros Hx. revert y.
  induction Hx as [|r x Hr Hx IH]; intros y Hy; [constructor|].
  destruct Hy as [|q y Hq Hy]; [constructor|].
  simpl. constructor; [rewrite length_app; lia | apply IH, Hy].
Qed.

Lemma weighted_sum_length d p (nodes : list (list R)) :
  Tensor.width_is d nodes -> length (weighted_sum d p nodes) = d.
Proof.
  unfold weighted_sum. intros Hn.
  assert (Hacc : length (replicate d (of_nat 0 : R)) = d) by apply length_replicate.
  revert Hacc. generalize (replicate d (of_nat 0 : R)) as acc.
  induction Hn as [|h nodes Hh Hn IH]; intros acc Hacc; simpl; [exact Hacc|].
  apply IH. unfold vadd, vscale. rewrite length_zip_with, length_map. lia.
Qed.

Lemma max_nodes_length d p (nodes : list (list R)) :
  Tensor.width_is d nodes -> length (max_nodes d p nodes) = d.
Proof.
  unfold max_nodes. intros Hn. destruct Hn as [|h nodes Hh Hn].
  - apply length_replicate.
  - revert h Hh. induction Hn as [|h' nodes Hh' Hn IH]; intros h Hh; simpl; [exact Hh|].
    apply IH. unfold vmax. rewrite length_zip_with. lia.
Qed.

Lemma readout_graph_length d p (nodes : list (list R)) :
  Tensor.width_is d nodes -> length (readout_graph d p nodes) = 2 * d.
Proof.
  intros Hn. unfold readout_graph.
  rewrite length_app, weighted_sum_length, max_nodes_length by exact Hn. lia.
Qed.

Lemma segments_width d counts : forall rows : list (list R),
  Tensor.width_is d rows -> Forall (Tensor.width_is d) (segments counts rows).
Proof.
  induction counts as [|n cs IH]; intros rows Hr; simpl; constructor.
  - apply Forall_take, Hr.
  - apply IH, Forall_drop, Hr.
Qed.

Lemma readout_width d p counts (rows : list (list R)) :
  Tensor.width_is d rows ->
  Tensor.width_is (2 * d) (map (readout_graph d p) (segments counts rows)).
Proof.
  intros Hr. unfold Tensor.width_is. rewrite Forall_map.
  eapply Forall_impl; [apply segments_width, Hr|].
  intros seg Hseg. simpl. apply readout_graph_length, Hseg.
Qed.

Lemma segments_lookup counts : forall (rows : list (list R)) k n,
  counts !! k = Some n ->
  segments counts rows !! k = Some (take n (drop (sum_list (take k counts)) rows)).
Proof.
  induction counts as [|c cs IH]; intros rows k n Hk; [done|].
  destruct k as [|k]; cbn [segments].
  - cbn in Hk. inversion Hk as [Hc]. reflexivity.
  - change (segments cs (drop c rows) !! k
            = Some (take n (drop (c + sum_list (take k cs)) rows))).
    change (cs !! k = Some n) in Hk.
    rewrite (IH (drop c rows) k n Hk), drop_drop. reflexivity.
Qed.

Lemma segments_length counts : forall rows : list (list R),
  length (segments counts rows) = length counts.
Proof. induction counts as [|c cs IH]; intros rows; cbn; [reflexivity|]. by rewrite IH. Qed.

Lemma nth_zip_with_lt (f : R -> R -> R) : forall (x y : list R) j d,
  j < length x -> j < length y ->
  nth j (zip_with f x y) d = f (nth j x d) (nth j y d).
Proof.
  induction x as [|a x IH]; intros [|b y] j d Hx Hy; cbn in *; try lia.
  destruct j as [|j]; [reflexivity|]. apply IH; lia.
Qed.

Lemma nth_map_lt (f : R -> R) : forall (x : list R) j d,
  j < length x -> nth j (map f x) d = f (nth j x d).
Proof.
  induction x as [|a x IH]; intros j d Hx; cbn in *; [lia|].
  destruct j as [|j]; [reflexivity|]. apply IH; lia.
Qed.

Lemma foldl_vadd_entry (p : ReadoutParams R) d j (nodes : list (list R)) :
  Tensor.width_is d nodes -> j < d -> forall acc, length acc = d ->
  nth j (foldl vadd acc (map (fun h => vscale (score p h) h) nodes)) (of_nat 0)
  = foldl (fun a h => radd a (rmul (score p h) (nth j h (of_nat 0))))
      (nth j acc (of_nat 0)) nodes.
Proof.
  intros Hn Hj.
  induction Hn as [|h nodes Hh Hn IH]; intros acc Hacc; cbn [map foldl]; [reflexivity|].
  rewrite IH.
  - f_equal. unfold vadd, vscale.
    rewrite nth_zip_with_lt by (rewrite ?length_map; lia).
    by rewrite nth_map_lt by lia.
  - unfold vadd, vscale. rewrite length_zip_with, length_map. lia.
Qed.

Lemma nth_replicate_same (x : R) d : forall j, nth j (replicate d x) x = x.
Proof. induction d as [|d IH]; intros [|j]; cbn; auto. Qed.

(** entry [j] of the weighted sum is the sum of the weighted entries [j] *)
Lemma weighted_sum_entry d p (nodes : list (list R)) j :
  Tensor.width_is d nodes -> j < d ->
  nth j (weighted_sum d p nodes) (of_nat 0)
  = foldl (fun acc h => radd acc (rmul (score p h) (nth j h (of_nat 0)))) (of_nat 0) nodes.
Proof.
  unfold weighted_sum. intros Hn Hj.
  rewrite (foldl_vadd_entry p d j nodes Hn Hj) by apply length_replicate.
  by rewrite nth_replicate_same.
Qed.

(** entry [j] of the maximum is the maximum of the entries [j] *)
Lemma max_nodes_entry d p (h : list R) (tl : list (list R)) j :
  Tensor.width_is d (h :: tl) -> j < d ->
  nth j (max_nodes d p (h :: tl)) (of_nat 0)
  = foldl (fun acc h' => rmax acc (nth j h' (of_nat 0))) (nth j h (of_nat 0)) tl.
Proof.
  unfold max_nodes. intros Hn Hj. apply Forall_cons in Hn as [Hh Htl].
  revert h Hh. induction Htl as [|h' tl Hh' Htl IH]; intros h Hh; cbn [foldl]; [reflexivity|].
  rewrite IH.
  - f_equal. unfold vmax. apply nth_zip_with_lt; lia.
  - unfold vmax. rewrite length_zip_with. lia.
Qed.

(** C7: the regressor of [Net] is declared with the input dimension
    [2 * (node_hidden_dim + fg_hidden_dim)]; [forward] returns the regressor
    applied to the concatenation, along the last dimension, of the readout
    of the atoms and the readout of the functional groups: with the readout
    of the design document the regressor receives one row for each graph of
    the batch, and the row of graph [k] is the weighted sum over the atoms
    of that graph, their elementwise maximum, the weighted sum over its
    functional groups and their elementwise maximum, in this order; entry
    [j] of a weighted sum is the sum of the weighted entries [j] of the
    nodes and entry [j] of a maximum the maximum of their entries [j]; when
    the embeddings that leave the message passing have the widths
    [node_hidden_dim] and [fg_hidden_dim], every row handed to the regressor
    has the declared width. *)
Theorem regressor_input_is_both_readouts (M : Modules R)
    (out_dim node_in_dim edge_in_dim fg_in_dim : nat)
    (num_neurons : list nat) (input_norm : string) (nef_dp reg_dp : Q)
    (node_hidden_dim edge_hidden_dim fg_hidden_dim : nat) (activation : string) :
  let net := Net_init out_dim node_in_dim edge_in_dim fg_in_dim num_neurons input_norm
               nef_dp reg_dp node_hidden_dim edge_hidden_dim fg_hidden_dim activation in
  let MS := with_spec_readout M in
  input_dim (reg net) = 2 * (node_hidden_dim + fg_hidden_dim)
  /\ (forall d p (nodes : list (list R)),
        readout_graph d p nodes = weighted_sum d p nodes ++ max_nodes d p nodes)
  /\ (forall (w : NetParams MS) (g : graph R) (nf ef ff : list (list R)),
        let unf0 := Linear_call MS (node_encoder net) (node_encoder_w w) nf in
        let uef0 := Linear_call MS (edge_encoder net) (edge_encoder_w w) ef in
        let uff0 := Linear_call MS (fg_encoder net) (fg_encoder_w w) ff in
        let out := snd (HyperMPNN_call MS (gnn_l net) (gnn_l_w w) g unf0 uef0 uff0) in
        let unf := out.1.1 in
        let uff := out.2 in
        let node_readout :=
          map (readout_graph node_hidden_dim (node_readout_w w)) (segments (n_atoms g) unf) in
        let fg_readout :=
          map (readout_graph fg_hidden_dim (fg_readout_w w)) (segments (n_func_groups g) uff) in
        snd (forward MS net w g nf ef ff)
          = MLP_call MS (reg net) (reg_w w) (regressor_input MS net w g nf ef ff)
        /\ regressor_input MS net w g nf ef ff = Tensor.cat_last node_readout fg_readout
        /\ (Tensor.width_is node_hidden_dim unf ->
            Tensor.width_is fg_hidden_dim uff ->
            Tensor.width_is (input_dim (reg net)) (regressor_input MS net w g nf ef ff))
        /\ length (regressor_input MS net w g nf ef ff)
           = Nat.min (length (n_atoms g)) (length (n_func_groups g))
        /\ (forall k n_a n_f,
              n_atoms g !! k = Some n_a ->
              n_func_groups g !! k = Some n_f ->
              let atoms := take n_a (drop (sum_list (take k (n_atoms g))) unf) in
              let groups := take n_f (drop (sum_list (take k (n_func_groups g))) uff) in
              regressor_input MS net w g nf ef ff !! k
              = Some (weighted_sum node_hidden_dim (node_readout_w w) atoms
                      ++ max_nodes node_hidden_dim (node_readout_w w) atoms
                      ++ weighted_sum fg_hidden_dim (fg_readout_w w) groups
                      ++ max_nodes fg_hidden_dim (fg_readout_w w) groups)))
  /\ (forall d p (nodes : list (list R)) j,
        Tensor.width_is d nodes -> j < d ->
        length (weighted_sum d p nodes) = d
        /\ length (max_nodes d p nodes) = d
        /\ nth j (weighted_sum d p nodes) (of_nat 0)
           = foldl (fun acc h => radd acc (rmul (score p h) (nth j h (of_nat 0))))
               (of_nat 0) nodes
        /\ nth j (max_nodes d p nodes) (of_nat 0)
           = match nodes with
             | [] => empty_max p
             | h :: tl => foldl (fun acc h' => rmax acc (nth j h' (of_nat 0)))
                            (nth j h (of_nat 0)) tl
             end).
Proof.
  intros net MS. split; [reflexivity|]. split; [reflexivity|]. split.
  - intros w g nf ef ff unf0 uef0 uff0 out unf uff node_readout fg_readout.
    assert (Hin : regressor_input MS net w g nf ef ff
                  = Tensor.cat_last node_readout fg_readout).
    { unfold regressor_input, forward_embed, forward_readout, node_readout, fg_readout,
        unf, uff, out, unf0, uef0, uff0.
      unfold mbind, GM_bind, gbind, mret, GM_ret, gret, call, set_ndata. cbn.
      destruct (HyperMPNN_call M _ _ g _ _ _) as [st [[a b] c]]. reflexivity. }
    split; [|split; [exact Hin|split; [|split]]].
    + unfold forward, local_scope, forward_body, regressor_input.
      unfold mbind, GM_bind, gbind, mret, GM_ret, gret.
      destruct (forward_embed MS net w nf ef ff g) as [g1 [a b]]. cbn.
      destruct (forward_readout MS net w a b g1) as [g2 r]. reflexivity.
    + intros Hn Hf. rewrite Hin. cbn [reg net Net_init input_dim].
      replace (2 * (node_hidden_dim + fg_hidden_dim))
        with (2 * node_hidden_dim + 2 * fg_hidden_dim) by lia.
      apply Forall_zip_with_app; apply readout_width; assumption.
    + rewrite Hin. unfold Tensor.cat_last, node_readout, fg_readout.
      by rewrite length_zip_with, !length_map, !segments_length.
    + intros k n_a n_f Ha Hf atoms groups. rewrite Hin.
      unfold Tensor.cat_last, node_readout, fg_readout.
      rewrite lookup_zip_with, !list_lookup_fmap.
      rewrite (segments_lookup _ _ _ _ Ha), (segments_lookup _ _ _ _ Hf). cbn.
      unfold readout_graph. fold atoms groups. by rewrite <- app_assoc.
  - intros d p nodes j Hn Hj.
    split; [by apply weighted_sum_length|]. split; [by apply max_nodes_length|].
    split; [by apply weighted_sum_entry|].
    destruct nodes as [|h tl].
    + cbn [max_nodes]. clear -Hj. revert j Hj.
      induction d as [|d IH]; intros [|j] Hj; cbn; try lia; auto. apply IH. lia.
    + by apply max_nodes_entry.
Qed.
End ReadoutFacts.

(** C7 on a batch of two molecules, the second without functional groups. *)
Lemma regressor_input_is_both_readouts_witness :
  (Tensor.width_is 2 (Demo.tile 2 Demo.nf) /\ Tensor.width_is 3 (Demo.tile 3 Demo.ff))
  /\ Tensor.width_is (Networks.input_dim (Networks.reg Demo.net))
       (Networks.regressor_input (Networks.with_spec_readout Demo.modules) Demo.net
          Demo.spec_params Demo.g Demo.nf Demo.ef Demo.ff)
  /\ (Networks.n_atoms Demo.g !! 1 = Some 1 /\ Networks.n_func_groups Demo.g !! 1 = Some 0)
  /\ Networks.regressor_input (Networks.with_spec_readout Demo.modules) Demo.net
       Demo.spec_params Demo.g Demo.nf Demo.ef Demo.ff !! 1
     = Some [242; 242; 11; 11; 0; 0; 0; 0; 0; 0]%Q
  /\ (Tensor.width_is 2 [[3; 3]; [7; 7]]%Q /\ 1 < 2)
  /\ nth 1 (Networks.weighted_sum 2 Demo.readout_params [[3; 3]; [7; 7]]%Q) (of_nat 0)
     = foldl (fun acc h => radd acc (rmul (Tensor.rsum h) (nth 1 h (of_nat 0))))
         (of_nat 0) [[3; 3]; [7; 7]]%Q.
Proof.
  assert (Hn : Tensor.width_is 2 (Demo.tile 2 Demo.nf)) by (repeat constructor).
  assert (Hf : Tensor.width_is 3 (Demo.tile 3 Demo.ff)) by (repeat constructor).
  assert (Hw : Tensor.width_is 2 [[3; 3]; [7; 7]]%Q) by (repeat constructor).
  pose proof (regressor_input_is_both_readouts Demo.modules 1 2 1 3 [4] "batch" 0%Q 0%Q
                2 1 3 Networks.default_activation) as (_ & _ & Hfw & Hentry).
  destruct (Hfw Demo.spec_params Demo.g Demo.nf Demo.ef Demo.ff)
    as (_ & _ & Hwidth & _ & Hrow).
  split; [split; assumption|]. split; [apply Hwidth; assumption|].
  split; [split; reflexivity|]. split; [exact (Hrow 1 1 0 eq_refl eq_refl)|].
  split; [split; [exact Hw | lia]|].
  destruct (Hentry 2 Demo.readout_params [[3; 3]; [7; 7]]%Q 1 Hw) as (_ & _ & He & _);
    [lia | exact He].
Defined.

Example regressor_input_demo :
  Networks.regressor_input (Networks.with_spec_readout Demo.modules) Demo.net
    Demo.spec_params Demo.g Demo.nf Demo.ef Demo.ff
  = [[116; 116; 7; 7; 27; 27; 27; 3; 3; 3]; [242; 242; 11; 11; 0; 0; 0; 0; 0; 0]]%Q.
Proof. vm_compute. reflexivity. Qed.

Section ForwardFacts.
Import Networks.
Context {R : Type}.
Variable M : Modules R.
Variable net : Net.
Variable w : NetParams M.

Lemma forward_body_topology (g : graph R) (nf ef ff : list (list R)) :
  let g1 := fst (forward_body M net w nf ef ff g) in
  n_atoms g1 = n_atoms g /\ n_func_groups g1 = n_func_groups g /\ edges g1 = edges g.
Proof.
  unfold forward_body, forward_embed, forward_readout.
  unfold mbind, GM_bind, gbind, mret, GM_ret, gret, call, set_ndata. cbn.
  destruct (HyperMPNN_call M _ _ g _ _ _) as [st [[unf uef] uff]]. cbn.
  destruct (WeightedSumAndMax_call M (node_readout_func net) _ _ _ _) as [st1 r1]. cbn.
  destruct (WeightedSumAndMax_call M (fg_readout_func net) _ _ _ _) as [st2 r2]. cbn.
  repeat split.
Qed.

(** C9: [forward] returns with the graph as it was given: the node and edge
    feature dictionaries are those of before the call, whatever the message
    passing and the readouts stored in them; the two assignments to ['h']
    are in force inside the [with] block, where the readouts receive the
    graph, and not after it. *)
Theorem forward_leaves_graph_data_unchanged (g : graph R) (nf ef ff : list (list R)) :
  let out := snd (HyperMPNN_call M (gnn_l net) (gnn_l_w w) g
                    (Linear_call M (node_encoder net) (node_encoder_w w) nf)
                    (Linear_call M (edge_encoder net) (edge_encoder_w w) ef)
                    (Linear_call M (fg_encoder net) (fg_encoder_w w) ff)) in
  let inside := graph_in_scope M net w g nf ef ff in
  let after := fst (forward M net w g nf ef ff) in
  after = g
  /\ (forall nt k, ndata after nt !! k = ndata g nt !! k)
  /\ (forall et, edata after et = edata g et)
  /\ ndata inside atom !! "h"%string = Some out.1.1
  /\ ndata inside func_group !! "h"%string = Some out.2.
Proof.
  intros out inside after.
  assert (E : after = g).
  { unfold after, forward, local_scope.
    pose proof (forward_body_topology g nf ef ff) as (E1 & E2 & E3).
    destruct (forward_body M net w nf ef ff g) as [g1 y]. cbn in *.
    unfold with_store. rewrite E1, E2, E3. destruct g; reflexivity. }
  split; [exact E|]. rewrite E. split; [reflexivity|]. split; [reflexivity|].
  unfold inside, out, graph_in_scope, forward_embed.
  unfold mbind, GM_bind, gbind, mret, GM_ret, gret, call, set_ndata. cbn.
  destruct (HyperMPNN_call M _ _ g _ _ _) as [st [[unf uef] uff]]. cbn.
  split; apply lookup_insert_eq.
Qed.
End ForwardFacts.

(** ** The training script *)


Section ListFacts.
Context {A B C : Type}.

Lemma omap_flat_map (f : B -> option C) (g : A -> list B) (l : list A) :
  omap f (flat_map g l) = flat_map (fun x => omap f (g x)) l.
Proof.
  induction l as [|x l IH]; simpl; [reflexivity|].
  by rewrite omap_app, IH.
Qed.

Lemma flat_map_ext_In (f g : A -> list B) (l : list A) :
  (forall x, In x l -> f x = g x) -> flat_map f l = flat_map g l.
Proof.
  induction l as [|x l IH]; intros Hfg; simpl; [reflexivity|].
  rewrite Hfg by (left; reflexivity). f_equal. apply IH. intros y Hy. apply Hfg. by right.
Qed.

Lemma flat_map_singleton_map (f : A -> B) (l : list A) :
  flat_map (fun x => [f x]) l = map f l.
Proof. induction l as [|x l IH]; cbn; by rewrite ?IH. Qed.

Lemma flat_map_seq_shift (F : nat -> list A) (a n : nat) :
  flat_map (fun i => F (a + i)) (seq 0 n) = flat_map F (seq a n).
Proof.
  revert a. induction n as [|n IH]; intros a; simpl; [reflexivity|].
  rewrite Nat.add_0_r. f_equal.
  rewrite <- (IH (S a)), <- seq_shift, flat_map_concat_map, map_map, <- flat_map_concat_map.
  apply flat_map_ext. intros i. f_equal. lia.
Qed.

Lemma flat_map_global_step (F : nat -> list A) (iters n_epochs : nat) :
  flat_map (fun e => flat_map (fun i => F (e * iters + i + 1)) (seq 0 iters)) (seq 0 n_epochs)
  = flat_map F (seq 1 (n_epochs * iters)).
Proof.
  induction n_epochs as [|n IH]; [reflexivity|].
  rewrite (seq_S n 0), flat_map_app, IH. simpl flat_map. rewrite app_nil_r.
  replace (iters + n * iters) with (n * iters + iters) by lia.
  rewrite seq_app, flat_map_app. f_equal.
  rewrite <- (flat_map_seq_shift F (1 + n * iters) iters). apply flat_map_ext. intros i. f_equal. lia.
Qed.
End ListFacts.

Section LossFacts.
Import Train.
Context {R : Type} {SR : Scalar R}.

Lemma rsum_concat (X : list (list R)) : forall a : R,
  foldl radd a (concat X) = foldl (fun acc row => foldl radd acc row) a X.
Proof.
  induction X as [|r X IH]; intros a; simpl; [reflexivity|].
  by rewrite foldl_app, IH.
Qed.

Lemma foldl_zip_with {X Y Z} (f : X -> Y -> Z) (g : R -> Z -> R) (p : list X) :
  forall (q : list Y) (a : R),
  foldl g a (zip_with f p q) = foldl (fun acc '(x, y) => g acc (f x y)) a (zip p q).
Proof.
  induction p as [|x p IH]; intros [|y q] a; simpl; try reflexivity. apply IH.
Qed.

Lemma squared_error_sum (x y : list (list R)) :
  Tensor.rsum (Tensor.flatten (squared_error x y))
  = foldl (fun acc '(p, q) =>
             foldl (fun acc '(a, b) => radd acc (rmul (rsub a b) (rsub a b))) acc (zip p q))
          (of_nat 0) (zip x y).
Proof.
  unfold Tensor.rsum, Tensor.flatten, squared_error.
  rewrite rsum_concat.
  rewrite (foldl_zip_with _ (fun acc row => foldl radd acc row)).
  generalize (of_nat 0 : R) as a. generalize (zip x y) as l.
  induction l as [|[p q] l IH]; intros a; simpl; [reflexivity|].
  rewrite (foldl_zip_with _ radd). apply IH.
Qed.

Lemma squared_error_numel (B D : nat) (x y : list (list R)) :
  length x = B -> length y = B -> Tensor.width_is D x -> Tensor.width_is D y ->
  Tensor.numel (squared_error x y) = B * D.
Proof.
  unfold Tensor.numel, Tensor.flatten, squared_error, Tensor.width_is.
  intros Hx Hy Wx. revert B y Hx Hy.
  induction Wx as [|r x Hr Wx IH]; intros B y Hx Hy Wy.
  - simpl in *. subst B. reflexivity.
  - destruct Wy as [|q y Hq Wy]; simpl in *; [lia|].
    rewrite length_app, length_zip_with.
    destruct B as [|B]; [lia|].
    rewrite (IH B y) by (assumption || lia). lia.
Qed.

Lemma mean_squared_error_refines (B D : nat) (x y : list (list R)) :
  length x = B -> length y = B -> Tensor.width_is D x -> Tensor.width_is D y ->
  Tensor.mean (MSELoss RedNone x y) = mean_of_squared_errors B D x y.
Proof.
  intros Hx Hy Wx Wy. unfold Tensor.mean, MSELoss, mean_of_squared_errors.
  rewrite squared_error_sum, (squared_error_numel B D) by assumption. reflexivity.
Qed.
End LossFacts.

Section TrainFacts.
Import Networks Train.
Context {R : Type} {SR : Scalar R}.
Variable rt : Runtime R.

#[local] Abbreviation tags o := (map skeleton (events o)).

Lemma events_bind {A B} (m : M rt A) (k : A -> M rt B) s :
  events (bind m k s) = events (m s) ++ events (k (value (m s)) (state (m s))).
Proof. unfold bind. destruct (m s) as [a s1 e1]. cbn. by destruct (k a s1). Qed.

Lemma value_bind {A B} (m : M rt A) (k : A -> M rt B) s :
  value (bind m k s) = value (k (value (m s)) (state (m s))).
Proof. unfold bind. destruct (m s) as [a s1 e1]. cbn. by destruct (k a s1). Qed.

Lemma state_bind {A B} (m : M rt A) (k : A -> M rt B) s :
  state (bind m k s) = state (k (value (m s)) (state (m s))).
Proof. unfold bind. destruct (m s) as [a s1 e1]. cbn. by destruct (k a s1). Qed.


Lemma train_keys_dom (a b c : R) :
  dom (<["train_rmse"%string := c]> (<["loss"%string := b]> (<["lr"%string := a]> (∅ : gmap string R))))
  = train_keys.
Proof.
  rewrite !dom_insert_L, dom_empty_L. unfold train_keys.
  apply set_eq. intros x. rewrite !elem_of_union, !elem_of_singleton, elem_of_empty. tauto.
Qed.

Lemma eval_keys_dom (d : gmap string R) (a b : R) :
  dom (<["test_rmse"%string := b]> (<["val_rmse"%string := a]> d)) = dom d ∪ eval_keys.
Proof.
  rewrite !dom_insert_L. unfold eval_keys.
  apply set_eq. intros x. rewrite !elem_of_union, !elem_of_singleton. tauto.
Qed.

Lemma train_batch_value config crit iters vg vl tg tl epoch i gs labels n s :
  value (train_batch rt config crit iters vg vl tg tl epoch i gs labels n s) = n + 1.
Proof.
  unfold train_batch, evaluate. run_script.
  destruct (_ =? 0); reflexivity.
Qed.

Lemma train_batch_tags config crit iters vg vl tg tl epoch i gs labels n s :
  tags (train_batch rt config crit iters vg vl tg tl epoch i gs labels n s)
  = step_tags (log_every (log config)) iters epoch i (n + 1).
Proof.
  unfold train_batch, step_tags, evaluate. run_script.
  destruct (_ =? 0); cbn -[insert dom union].
  - rewrite eval_keys_dom, train_keys_dom. reflexivity.
  - rewrite train_keys_dom. reflexivity.
Qed.

Lemma enumerate_map_seq {A} (f : nat -> A) n :
  enumerate (map f (seq 0 n)) = map (fun i => (i, f i)) (seq 0 n).
Proof.
  unfold enumerate. rewrite length_map, length_seq.
  generalize 0 as a. induction n as [|n IH]; intros a; simpl; [reflexivity|].
  by rewrite IH.
Qed.

Lemma for_fold_batches_tags config crit iters vg vl tg tl epoch
    (f : nat -> graph R * list (list R)) len : forall a n s,
  let o := for_fold (map (fun i => (i, f i)) (seq a len))
             (fun '(i, (gs, labels)) n_update =>
                train_batch rt config crit iters vg vl tg tl epoch i gs labels n_update) n s in
  tags o = flat_map (fun i => step_tags (log_every (log config)) iters epoch i (n + (i - a) + 1))
             (seq a len)
  /\ value o = n + len.
Proof.
  induction len as [|len IH]; intros a n s; cbn [seq map for_fold flat_map].
  - split; [reflexivity | cbn; lia].
  - destruct (f a) as [gs labels] eqn:Ef.
    specialize (IH (S a) (n + 1)).
    cbn zeta in IH.
    rewrite events_bind, value_bind, map_app, train_batch_tags, train_batch_value.
    destruct (IH (state (train_batch rt config crit iters vg vl tg tl epoch a gs labels n s))) as [IH1 IH2].
    rewrite IH1, IH2. split; [|lia].
    replace (n + (a - a) + 1) with (n + 1) by lia. f_equal.
    apply flat_map_ext_In. intros i Hi%in_seq.
    replace (n + 1 + (i - S a) + 1) with (n + (i - a) + 1) by lia. reflexivity.
Qed.

Lemma train_epoch_tags config crit iters dl vg vl tg tl epoch n s :
  let o := train_epoch rt config crit iters dl vg vl tg tl epoch n s in
  tags o = flat_map (fun i => step_tags (log_every (log config)) iters epoch i (n + i + 1))
             (seq 0 (dl_len rt dl))
  /\ value o = n + dl_len rt dl.
Proof.
  unfold train_epoch, dl_iter. unfold mbind, M_bind.
  rewrite events_bind, value_bind. cbn [read value state events app].
  rewrite enumerate_map_seq.
  destruct (for_fold_batches_tags config crit iters vg vl tg tl epoch
              (dl_batch rt dl s) (dl_len rt dl) 0 n s) as [E1 E2].
  split; [|exact E2].
  rewrite E1. apply flat_map_ext. intros i. by rewrite Nat.sub_0_r.
Qed.

Lemma for_fold_epochs_tags config crit dl vg vl tg tl len : forall a s,
  let iters := dl_len rt dl in
  let o := for_fold (seq a len) (train_epoch rt config crit iters dl vg vl tg tl)
             (a * iters) s in
  tags o = flat_map (epoch_tags (log_every (log config)) iters) (seq a len).
Proof.
  induction len as [|len IH]; intros a s; simpl; [reflexivity|].
  rewrite events_bind.
  destruct (train_epoch_tags config crit (dl_len rt dl) dl vg vl tg tl a (a * dl_len rt dl) s)
    as [E1 E2].
  rewrite map_app, E1, E2.
  replace (a * dl_len rt dl + dl_len rt dl) with (S a * dl_len rt dl) by lia.
  rewrite (IH (S a)). reflexivity.
Qed.

Lemma training_tags env s :
  tags (training rt env s)
  = loop_tags (log_every (log (env_config env))) (dl_len rt (env_train_dl env))
      (epochs (train (env_config env))) ++ [TRunFinish].
Proof.
  unfold training, loop_tags. unfold mbind, M_bind.
  rewrite events_bind, map_app.
  rewrite (for_fold_epochs_tags _ _ _ _ _ _ _ _ 0 s).
  reflexivity.
Qed.

Lemma load_splits_tags ds init_feat fg_cyc s :
  tags (load_splits rt ds init_feat fg_cyc s) = map TLoadGraphs (split_paths ds init_feat fg_cyc).
Proof.
  unfold load_splits, load. destruct init_feat, fg_cyc; Train.run_script; reflexivity.
Qed.

Lemma setup_outcome ds init_feat fg_cyc nn inorm nd rd dev s :
  let o := setup rt ds init_feat fg_cyc nn inorm nd rd dev s in
  tags o = setup_tags ds init_feat fg_cyc
  /\ env_config (value o) = get_config ds init_feat fg_cyc nn inorm nd rd
  /\ env_criterion (value o) = MSELoss RedNone.
Proof.
  unfold setup. unfold mbind, M_bind.
  rewrite events_bind, value_bind, map_app, load_splits_tags.
  destruct (value (load_splits rt ds init_feat fg_cyc s))
    as [[[train_gs train_info] [val_gs val_info]] [test_gs test_info]].
  cbn -[join]. repeat split.
Qed.

Lemma main_tags ds init_feat fg_cyc nn inorm nd rd dev s :
  tags (main rt ds init_feat fg_cyc nn inorm nd rd dev s)
  = run_tags ds init_feat fg_cyc (run_iters rt ds init_feat fg_cyc nn inorm nd rd dev s).
Proof.
  unfold main, run_tags, run_iters. unfold mbind, M_bind.
  rewrite events_bind.
  destruct (setup_outcome ds init_feat fg_cyc nn inorm nd rd dev s) as (E1 & E2 & _).
  rewrite map_app, E1, training_tags, E2. reflexivity.
Qed.

(** the views of the calls of one batch *)
Lemma step_tags_opt_sched log_every iters epoch i k :
  omap opt_sched (step_tags (R:=R) log_every iters epoch i k)
  = [TOptStep; TSchedulerStep (fractional_epoch iters epoch i)].
Proof. unfold step_tags. destruct (_ =? 0); reflexivity. Qed.


Lemma step_tags_step_save log_every iters epoch i k :
  omap step_save (step_tags (R:=R) log_every iters epoch i k) = [TOptStep; TTorchSave].
Proof. unfold step_tags. destruct (_ =? 0); reflexivity. Qed.

Lemma step_tags_run_bounds log_every iters epoch i k :
  omap run_bounds (step_tags (R:=R) log_every iters epoch i k) = [].
Proof. unfold step_tags. destruct (_ =? 0); reflexivity. Qed.

Lemma step_tags_loaded_path log_every iters epoch i k :
  omap loaded_path (step_tags (R:=R) log_every iters epoch i k) = [].
Proof. unfold step_tags. destruct (_ =? 0); reflexivity. Qed.

Lemma loop_tags_view {K} (v : tag R -> option K) log_every iters n_epochs :
  omap v (loop_tags log_every iters n_epochs)
  = flat_map (fun e => flat_map
       (fun i => omap v (step_tags log_every iters e i (e * iters + i + 1))) (seq 0 iters))
      (seq 0 n_epochs).
Proof.
  unfold loop_tags. rewrite omap_flat_map. apply flat_map_ext. intros e.
  unfold epoch_tags. apply omap_flat_map.
Qed.

Lemma flat_map_nil {X Y} (l : list X) : flat_map (fun _ => @nil Y) l = [].
Proof. induction l; simpl; auto. Qed.

Lemma run_tags_view {K} (v : tag R -> option K) ds init_feat fg_cyc iters :
  omap v (run_tags ds init_feat fg_cyc iters)
  = omap v (setup_tags ds init_feat fg_cyc)
    ++ flat_map (fun e => flat_map
         (fun i => omap v (step_tags 50 iters e i (e * iters + i + 1))) (seq 0 iters))
        (seq 0 2400)
    ++ omap v [TRunFinish].
Proof. unfold run_tags. by rewrite !omap_app, loop_tags_view. Qed.

(** the trace of a run is the traces of its batches, one after the other *)
Lemma for_fold_batches_events env epoch s0 len :
  let dl := env_train_dl env in
  forall a n s,
  exists bs : list (batch_run rt),
    events (for_fold (map (fun i => (i, dl_batch rt dl s0 i)) (seq a len))
              (fun '(i, (gs, labels)) n_update =>
                 train_batch rt (env_config env) (env_criterion env) (dl_len rt dl)
                   (env_val_gs env) (env_val_labels env) (env_test_gs env)
                   (env_test_labels env) epoch i gs labels n_update) n s)
    = flat_map (fun b => events (run_batch rt env b)) bs
    /\ length bs = len
    /\ Forall (fun b => br_epoch b = epoch /\ a <= br_i b < a + len
                        /\ br_n_update b = n + (br_i b - a)
                        /\ (br_gs b, br_labels b) = dl_batch rt dl s0 (br_i b)) bs.
Proof.
  intros dl. induction len as [|len IH]; intros a n s; cbn [seq map for_fold].
  - exists []. repeat split. constructor.
  - destruct (dl_batch rt dl s0 a) as [gs labels] eqn:Eb.
    rewrite events_bind, train_batch_value.
    set (s1 := state (train_batch rt (env_config env) (env_criterion env) (dl_len rt dl)
                        (env_val_gs env) (env_val_labels env) (env_test_gs env)
                        (env_test_labels env) epoch a gs labels n s)).
    destruct (IH (S a) (n + 1) s1) as (bs & E & L & F).
    exists (mkBatchRun epoch a gs labels n s :: bs).
    split; [|split].
    + cbn [flat_map]. rewrite E. reflexivity.
    + cbn. by rewrite L.
    + constructor.
      * cbn. repeat split; try lia. by rewrite Eb.
      * eapply Forall_impl; [exact F|]. cbn. intros b (? & ? & ? & ?).
        repeat split; try lia; assumption.
Qed.

Lemma train_epoch_events env epoch n s :
  let dl := env_train_dl env in
  exists bs : list (batch_run rt),
    events (train_epoch rt (env_config env) (env_criterion env) (dl_len rt dl) dl
              (env_val_gs env) (env_val_labels env) (env_test_gs env)
              (env_test_labels env) epoch n s)
    = flat_map (fun b => events (run_batch rt env b)) bs
    /\ length bs = dl_len rt dl
    /\ Forall (fun b => br_epoch b = epoch /\ br_i b < dl_len rt dl
                        /\ br_n_update b = n + br_i b
                        /\ exists s0, (br_gs b, br_labels b) = dl_batch rt dl s0 (br_i b)) bs.
Proof.
  intros dl. unfold train_epoch, dl_iter. unfold mbind, M_bind.
  rewrite events_bind. cbn [read value state events app].
  rewrite enumerate_map_seq.
  destruct (for_fold_batches_events env epoch s (dl_len rt dl) 0 n s)
    as (bs & E & L & F).
  exists bs. split; [exact E|]. split; [exact L|].
  eapply Forall_impl; [exact F|]. cbn. intros b (? & ? & ? & ?).
  repeat split; try lia. by exists s.
Qed.

Lemma for_fold_epochs_events env len : forall a s,
  let dl := env_train_dl env in
  exists bs : list (batch_run rt),
    events (for_fold (seq a len)
              (train_epoch rt (env_config env) (env_criterion env) (dl_len rt dl) dl
                 (env_val_gs env) (env_val_labels env) (env_test_gs env)
                 (env_test_labels env))
              (a * dl_len rt dl) s)
    = flat_map (fun b => events (run_batch rt env b)) bs
    /\ length bs = len * dl_len rt dl
    /\ Forall (batch_of_run rt dl (a + len)) bs.
Proof.
  induction len as [|len IH]; intros a s dl; cbn [seq for_fold].
  - exists []. repeat split. constructor.
  - rewrite events_bind.
    destruct (train_epoch_events env a (a * dl_len rt dl) s) as (bs1 & E1 & L1 & F1).
    destruct (train_epoch_tags (env_config env) (env_criterion env) (dl_len rt dl) dl
                (env_val_gs env) (env_val_labels env) (env_test_gs env)
                (env_test_labels env) a (a * dl_len rt dl) s) as [_ V].
    fold dl in E1, L1, F1. rewrite V.
    replace (a * dl_len rt dl + dl_len rt dl) with (S a * dl_len rt dl) by lia.
    edestruct (IH (S a)) as (bs2 & E2 & L2 & F2).
    fold dl in E2, L2, F2.
    exists (bs1 ++ bs2). split; [|split].
    + rewrite flat_map_app, E1. f_equal. exact E2.
    + rewrite length_app, L1, L2. lia.
    + apply Forall_app. split.
      * eapply Forall_impl; [exact F1|]. intros b (? & ? & ? & ?).
        unfold batch_of_run. repeat split; try lia; assumption.
      * eapply Forall_impl; [exact F2|]. unfold batch_of_run. intros b (? & ? & ? & ?).
        repeat split; try lia; assumption.
Qed.

Lemma main_events ds init_feat fg_cyc nn inorm nd rd dev s :
  let o := setup rt ds init_feat fg_cyc nn inorm nd rd dev s in
  exists bs : list (batch_run rt),
    events (main rt ds init_feat fg_cyc nn inorm nd rd dev s)
    = events o ++ flat_map (fun b => events (run_batch rt (value o) b)) bs ++ [RunFinish]
    /\ length bs = 2400 * dl_len rt (env_train_dl (value o))
    /\ Forall (batch_of_run rt (env_train_dl (value o)) 2400) bs.
Proof.
  intros o. unfold main, training. unfold mbind, M_bind.
  rewrite !events_bind. fold o.
  destruct (setup_outcome ds init_feat fg_cyc nn inorm nd rd dev s) as (_ & Ec & _).
  fold o in Ec.
  assert (Hep : epochs (train (env_config (value o))) = 2400) by (by rewrite Ec).
  rewrite !Hep.
  destruct (for_fold_epochs_events (value o) 2400 0 (state o)) as (bs & E & L & F).
  exists bs. split; [|split; assumption].
  change (0 * dl_len rt (env_train_dl (value o))) with 0 in E.
  rewrite E. reflexivity.
Qed.

(** what a projection of the events finds in a part of the run that has no
    event of its kind *)
Lemma no_backward_by_tags (evs : list (event R (RT_state_dict rt))) :
  Forall (fun t => t <> TBackward) (map skeleton evs) -> omap backward_loss evs = [].
Proof.
  induction evs as [|e evs IH]; [reflexivity|].
  cbn [map]. intros Hall. apply Forall_cons in Hall as [He Hevs].
  destruct e; cbn in *; try (by apply IH). by destruct He.
Qed.

Lemma no_save_by_tags (evs : list (event R (RT_state_dict rt))) :
  Forall (fun t => t <> TTorchSave) (map skeleton evs) -> omap saved evs = [].
Proof.
  induction evs as [|e evs IH]; [reflexivity|].
  cbn [map]. intros Hall. apply Forall_cons in Hall as [He Hevs].
  destruct e; cbn in *; try (by apply IH). by destruct He.
Qed.

Lemma setup_tags_plain ds init_feat fg_cyc :
  Forall (fun t : tag R => t <> TBackward /\ t <> TTorchSave) (setup_tags ds init_feat fg_cyc).
Proof. unfold setup_tags. cbn. repeat constructor; discriminate. Qed.

Lemma run_batch_backward env (b : batch_run rt) :
  omap backward_loss (events (run_batch rt env b))
  = [Tensor.mean (env_criterion env (batch_logits rt b) (br_labels b))].
Proof.
  unfold run_batch, batch_logits, train_batch, evaluate. run_script.
  destruct (_ =? 0); reflexivity.
Qed.

Lemma run_batch_saved env (b : batch_run rt) :
  exists s1,
    let save := TorchSave (get_state_dict rt s1) (join (wandb_run_dir rt s1) "model.pt") in
    last (events (run_batch rt env b)) = Some save
    /\ omap saved (events (run_batch rt env b))
       = [(get_state_dict rt s1, join (wandb_run_dir rt s1) "model.pt")]
    /\ state (run_batch rt env b) = react rt save s1.
Proof.
  unfold run_batch, train_batch, evaluate. run_script.
  destruct (_ =? 0); cbn -[insert];
    eexists; (split; [reflexivity|]); split; reflexivity.
Qed.

Lemma flat_map_singletons {X Y Z} (f : X -> list Y) (g : Z -> Y) (xs : list X) :
  (forall x, exists z, f x = [g z]) ->
  exists zs, length zs = length xs /\ flat_map f xs = map g zs.
Proof.
  intros Hf. induction xs as [|x xs (zs & L & E)].
  - by exists [].
  - destruct (Hf x) as [z Hz]. exists (z :: zs). cbn. by rewrite L, E, Hz.
Qed.

End TrainFacts.

Section TrainClaims.
Import Networks Train.
Context {R : Type} {SR : Scalar R}.
Variable rt : Runtime R.

#[local] Abbreviation tags o := (map skeleton (events o)).

(** C2: the criterion [main] builds is the squared error without reduction;
    in every batch there is one backward pass, and its loss is the mean over
    all elements of the squared errors of the predictions of the model
    against the labels; so it is for each of the [2400 * len(train_dl)]
    batches of a run; on predictions and labels of [B] rows and [D] columns
    that mean is the sum of the [B * D] squared errors over [B * D]. *)
Theorem loss_is_mean_of_unreduced_squared_error :
  (forall ds init_feat fg_cyc num_neurons input_norm nef_dp reg_dp device s,
     env_criterion
       (value (setup rt ds init_feat fg_cyc num_neurons input_norm nef_dp reg_dp device s))
     = MSELoss RedNone)
  /\ (forall config iters val_gs val_labels test_gs test_labels epoch i gs labels n s,
        let logits := model_call rt gs (node_feat gs atom) (edge_feat gs interacts)
                        (node_feat gs func_group) s in
        omap backward_loss
          (events (train_batch rt config (MSELoss RedNone) iters val_gs val_labels
                     test_gs test_labels epoch i gs labels n s))
        = [Tensor.mean (squared_error logits labels)])
  /\ (forall ds init_feat fg_cyc num_neurons input_norm nef_dp reg_dp device s,
        let env := value (setup rt ds init_feat fg_cyc num_neurons input_norm nef_dp reg_dp
                            device s) in
        exists batches : list (batch_run rt),
          length batches = 2400 * dl_len rt (env_train_dl env)
          /\ Forall (batch_of_run rt (env_train_dl env) 2400) batches
          /\ omap backward_loss
               (events (main rt ds init_feat fg_cyc num_neurons input_norm nef_dp reg_dp
                          device s))
             = map (fun b => Tensor.mean (squared_error (batch_logits rt b) (br_labels b)))
                 batches)
  /\ (forall B D (logits labels : list (list R)),
        length logits = B -> length labels = B ->
        Tensor.width_is D logits -> Tensor.width_is D labels ->
        Tensor.mean (MSELoss RedNone logits labels)
        = mean_of_squared_errors B D logits labels).
Proof.
  split; [|split; [|split]].
  - intros. apply (setup_outcome rt).
  - intros. unfold train_batch, evaluate. run_script.
    destruct (_ =? 0); reflexivity.
  - intros ds init_feat fg_cyc nn inorm nd rd dev s env.
    destruct (main_events rt ds init_feat fg_cyc nn inorm nd rd dev s) as (bs & E & L & F).
    destruct (setup_outcome rt ds init_feat fg_cyc nn inorm nd rd dev s) as (Et & _ & Ec).
    fold env in E, L, F, Ec. exists bs. split; [exact L|]. split; [exact F|].
    rewrite E, !omap_app, no_backward_by_tags.
    + cbn [omap list_omap backward_loss app]. rewrite app_nil_r, omap_flat_map.
      rewrite (flat_map_ext _ (fun b => [Tensor.mean (squared_error (batch_logits rt b)
                                                       (br_labels b))])).
      * apply flat_map_singleton_map.
      * intros b. rewrite run_batch_backward, Ec. reflexivity.
    + rewrite Et. eapply Forall_impl; [apply setup_tags_plain|]. by intros t [? _].
  - intros. by apply mean_squared_error_refines.
Qed.

(** C3: the scheduler is built with the restart period [T_0 = 50] of the
    configuration; in every batch it is advanced once, right after the step
    of the optimizer, with [epoch + i / iters]; over a run the optimizer and
    scheduler steps alternate, batch [i] of epoch [epoch] advancing the
    scheduler to [epoch + i / len(train_dl)]. *)
Theorem scheduler_advanced_every_batch_with_fractional_epoch :
  (forall config crit iters val_gs val_labels test_gs test_labels epoch i gs labels n s,
     omap opt_sched
       (tags (train_batch rt config crit iters val_gs val_labels test_gs test_labels
                epoch i gs labels n s))
     = [TOptStep; TSchedulerStep (radd (of_nat epoch) (rdiv (of_nat i) (of_nat iters)))])
  /\ (forall ds init_feat fg_cyc num_neurons input_norm nef_dp reg_dp device s,
        let run := main rt ds init_feat fg_cyc num_neurons input_norm nef_dp reg_dp device s in
        let iters := run_iters rt ds init_feat fg_cyc num_neurons input_norm nef_dp reg_dp
                       device s in
        omap scheduler_period (tags run)
        = [T_0 (train (get_config ds init_feat fg_cyc num_neurons input_norm nef_dp reg_dp))]
        /\ omap opt_sched (tags run)
           = flat_map (fun epoch => flat_map (fun i =>
                 [TOptStep;
                  TSchedulerStep (radd (of_nat epoch) (rdiv (of_nat i) (of_nat iters)))])
               (seq 0 iters)) (seq 0 2400)).
Proof.
  split.
  - intros. rewrite train_batch_tags. apply step_tags_opt_sched.
  - intros ds init_feat fg_cyc nn inorm nd rd dev s run iters.
    unfold run, iters. rewrite main_tags. split.
    + rewrite run_tags_view.
      rewrite (flat_map_ext _ (fun _ => [])), flat_map_nil.
      * destruct init_feat, fg_cyc; reflexivity.
      * intros e. rewrite (flat_map_ext _ (fun _ => [])), flat_map_nil; [reflexivity|].
        intros i. unfold step_tags. destruct (_ =? 0); reflexivity.
    + rewrite run_tags_view.
      replace (omap opt_sched (setup_tags ds init_feat fg_cyc)) with (@nil (tag R))
        by (destruct init_feat, fg_cyc; reflexivity).
      cbn [omap list_omap opt_sched app]. rewrite app_nil_r.
      apply flat_map_ext. intros e. apply flat_map_ext. intros i.
      apply step_tags_opt_sched.
Qed.

(** C5: the last call of every batch saves the [state_dict] of the model as
    it is then, under [model.pt] in the directory of the run; over a run
    there are [2400 * len(train_dl)] saves, one after each step of the
    optimizer and before the next, each of the state of the model at its
    time. *)
Theorem checkpoint_saved_every_batch :
  (forall config crit iters val_gs val_labels test_gs test_labels epoch i gs labels n s,
     let o := train_batch rt config crit iters val_gs val_labels test_gs test_labels
                epoch i gs labels n s in
     exists s1,
       let save := TorchSave (get_state_dict rt s1) (join (wandb_run_dir rt s1) "model.pt") in
       last (events o) = Some save
       /\ omap saved (events o)
          = [(get_state_dict rt s1, join (wandb_run_dir rt s1) "model.pt")]
       /\ state o = react rt save s1)
  /\ (forall ds init_feat fg_cyc num_neurons input_norm nef_dp reg_dp device s,
        let run := main rt ds init_feat fg_cyc num_neurons input_norm nef_dp reg_dp device s in
        let iters := run_iters rt ds init_feat fg_cyc num_neurons input_norm nef_dp reg_dp
                       device s in
        omap step_save (tags run)
        = flat_map (fun _ => [TOptStep; TTorchSave]) (seq 1 (2400 * iters))
        /\ exists states : list (RT_state rt),
             length states = 2400 * iters
             /\ omap saved (events run)
                = map (fun s1 => (get_state_dict rt s1,
                                  join (wandb_run_dir rt s1) "model.pt")) states).
Proof.
  split.
  - intros. unfold o, train_batch, evaluate. run_script.
    destruct (_ =? 0); cbn -[insert];
      eexists; (split; [reflexivity|]); split; reflexivity.
  - intros ds init_feat fg_cyc nn inorm nd rd dev s run iters. split.
    + unfold run, iters. rewrite main_tags, run_tags_view.
      replace (omap step_save (setup_tags ds init_feat fg_cyc)) with (@nil (tag R))
        by (destruct init_feat, fg_cyc; reflexivity).
      cbn [omap list_omap step_save app]. rewrite app_nil_r.
      rewrite <- (flat_map_global_step (fun _ => [TOptStep; TTorchSave])).
      apply flat_map_ext. intros e. apply flat_map_ext. intros i.
      apply step_tags_step_save.
    + destruct (main_events rt ds init_feat fg_cyc nn inorm nd rd dev s) as (bs & E & L & _).
      destruct (setup_outcome rt ds init_feat fg_cyc nn inorm nd rd dev s) as (Et & _ & _).
      destruct (flat_map_singletons
                  (fun b => omap saved (events (run_batch rt
                     (value (setup rt ds init_feat fg_cyc nn inorm nd rd dev s)) b)))
                  (fun s1 => (get_state_dict rt s1, join (wandb_run_dir rt s1) "model.pt"))
                  bs) as (states & Ls & Es).
      { intros b. destruct (run_batch_saved rt
          (value (setup rt ds init_feat fg_cyc nn inorm nd rd dev s)) b) as (s1 & _ & Hs & _).
        by exists s1. }
      exists states. split; [rewrite Ls, L; reflexivity|].
      unfold run. rewrite E, !omap_app, no_save_by_tags.
      * cbn [omap list_omap saved app]. by rewrite app_nil_r, omap_flat_map.
      * rewrite Et. eapply Forall_impl; [apply setup_tags_plain|]. by intros t [_ ?].
Qed.

(** C6: a run reads three files, the training, validation and test graphs
    in this order, all of the one variant the two flags select: under
    [data/] with no prefix or the prefix [noinit_] when [fg_cyc] holds,
    under [data_nocyc/] with the prefix [nocyc_] or [nocyc_noinit_] when it
    does not, the second of each pair when [init_feat] does not hold. *)
Theorem loader_reads_the_selected_variant (ds : string) :
  (forall init_feat fg_cyc num_neurons input_norm nef_dp reg_dp device s,
     omap loaded_path
       (tags (main rt ds init_feat fg_cyc num_neurons input_norm nef_dp reg_dp device s))
     = split_paths ds init_feat fg_cyc)
  /\ split_paths ds true true
     = ["data/" +:+ ds +:+ "_train.bin"; "data/" +:+ ds +:+ "_val.bin";
        "data/" +:+ ds +:+ "_test.bin"]
  /\ split_paths ds false true
     = ["data/noinit_" +:+ ds +:+ "_train.bin"; "data/noinit_" +:+ ds +:+ "_val.bin";
        "data/noinit_" +:+ ds +:+ "_test.bin"]
  /\ split_paths ds true false
     = ["data_nocyc/nocyc_" +:+ ds +:+ "_train.bin";
        "data_nocyc/nocyc_" +:+ ds +:+ "_val.bin";
        "data_nocyc/nocyc_" +:+ ds +:+ "_test.bin"]
  /\ split_paths ds false false
     = ["data_nocyc/nocyc_noinit_" +:+ ds +:+ "_train.bin";
        "data_nocyc/nocyc_noinit_" +:+ ds +:+ "_val.bin";
        "data_nocyc/nocyc_noinit_" +:+ ds +:+ "_test.bin"].
Proof.
  split; [|repeat split].
  intros init_feat fg_cyc nn inorm nd rd dev s.
  rewrite main_tags, run_tags_view.
  rewrite (flat_map_ext _ (fun _ => [])), flat_map_nil.
  - destruct init_feat, fg_cyc; reflexivity.
  - intros e. rewrite (flat_map_ext _ (fun _ => [])), flat_map_nil; [reflexivity|].
    intros i. apply step_tags_loaded_path.
Qed.

(** C10: the script runs [main] three times, one run after the other, each
    with the arguments parsed once at the start; every run goes from the
    three loads through [wandb.init] and all its 2400 epochs to
    [run.finish()]. *)
Theorem script_runs_main_three_times (args : Args) (s : RT_state rt) :
  let run := main rt (arg_ds args) (arg_init_feat args) (arg_fg_cyc args)
               (arg_num_neurons args) (arg_input_norm args) (arg_nef_dp args)
               (arg_reg_dp args) (arg_device args) in
  let iters := run_iters rt (arg_ds args) (arg_init_feat args) (arg_fg_cyc args)
                 (arg_num_neurons args) (arg_input_norm args) (arg_nef_dp args)
                 (arg_reg_dp args) (arg_device args) in
  let s1 := state (run s) in
  let s2 := state (run s1) in
  let s3 := state (run s2) in
  let o := script rt args s in
  events o = events (run s) ++ events (run s1) ++ events (run s2)
  /\ state o = s3
  /\ tags o
     = run_tags (arg_ds args) (arg_init_feat args) (arg_fg_cyc args) (iters s)
       ++ run_tags (arg_ds args) (arg_init_feat args) (arg_fg_cyc args) (iters s1)
       ++ run_tags (arg_ds args) (arg_init_feat args) (arg_fg_cyc args) (iters s2)
  /\ omap run_bounds (tags o)
     = [TWandbInit; TRunFinish; TWandbInit; TRunFinish; TWandbInit; TRunFinish].
Proof.
  intros run iters s1 s2 s3 o.
  assert (Hev : events o = events (run s) ++ events (run s1) ++ events (run s2)).
  { unfold o, script. cbn [seq for_fold].
    rewrite !events_bind. cbn [ret events]. by rewrite app_nil_r. }
  assert (Hb : forall it, omap run_bounds
             (run_tags (R:=R) (arg_ds args) (arg_init_feat args) (arg_fg_cyc args) it)
             = [TWandbInit; TRunFinish]).
  { intros it. rewrite run_tags_view.
    rewrite (flat_map_ext _ (fun _ => [])), flat_map_nil.
    - destruct (arg_init_feat args), (arg_fg_cyc args); reflexivity.
    - intros e. rewrite (flat_map_ext _ (fun _ => [])), flat_map_nil; [reflexivity|].
      intros i. apply step_tags_run_bounds. }
  assert (Ht : tags o
     = run_tags (arg_ds args) (arg_init_feat args) (arg_fg_cyc args) (iters s)
       ++ run_tags (arg_ds args) (arg_init_feat args) (arg_fg_cyc args) (iters s1)
       ++ run_tags (arg_ds args) (arg_init_feat args) (arg_fg_cyc args) (iters s2)).
  { rewrite Hev, !map_app. unfold run, iters. by rewrite !main_tags. }
  split; [exact Hev|]. split.
  - unfold o, script. cbn [seq for_fold]. by rewrite !state_bind.
  - split; [exact Ht|]. rewrite Ht, !omap_app, !Hb. reflexivity.
Qed.
End TrainClaims.

(** ** The definitions on small inputs *)

Example forward_demo :
  let MS := Networks.with_spec_readout Demo.modules in
  let inside := Networks.graph_in_scope MS Demo.net Demo.spec_params Demo.g
                  Demo.nf Demo.ef Demo.ff in
  let out := Networks.forward MS Demo.net Demo.spec_params Demo.g Demo.nf Demo.ef Demo.ff in
  Networks.ndata Demo.g Networks.atom !! "h"%string = None
  /\ Networks.ndata inside Networks.atom !! "h"%string = Some [[3; 3]; [7; 7]; [11; 11]]%Q
  /\ Networks.ndata inside Networks.atom !! "m"%string = Some [[3; 3]; [7; 7]; [11; 11]]%Q
  /\ Networks.ndata inside Networks.func_group !! "h"%string = Some [[3; 3; 3]]%Q
  /\ Networks.ndata (fst out) Networks.atom !! "h"%string = None
  /\ Networks.ndata (fst out) Networks.atom !! "m"%string = None
  /\ snd out = [[336]; [506]]%Q.
Proof. vm_compute. repeat split. Qed.

Example join_demo :
  Train.join "wandb/run-1/files" "model.pt" = "wandb/run-1/files/model.pt"%string
  /\ Train.join "runs/" "model.pt" = "runs/model.pt"%string
  /\ Train.join "" "model.pt" = "model.pt"%string.
Proof. repeat split. Qed.

Example split_paths_demo :
  Train.split_paths "freesolv" false false
  = ["data_nocyc/nocyc_noinit_freesolv_train.bin";
     "data_nocyc/nocyc_noinit_freesolv_val.bin";
     "data_nocyc/nocyc_noinit_freesolv_test.bin"]%string.
Proof. reflexivity. Qed.

Example mean_squared_error_demo :
  Tensor.mean (Train.MSELoss Train.RedNone [[1; 2]; [3; 5]]%Q [[0; 2]; [1; 1]]%Q)
  = (21 # 4)%Q.
Proof. reflexivity. Qed.

(** step 50 of a run: batch 1 of epoch 24 when an epoch has two batches *)
Example train_batch_demo_evaluated :
  let o := Train.train_batch Demo.rt Demo.config (Train.MSELoss Train.RedNone) 2
             Demo.g [[1]]%Q Demo.g [[2]]%Q 24 1 Demo.g [[1]; [0]]%Q 49 0 in
  map Train.skeleton (Train.events o)
  = [Train.TModelCall; Train.TZeroGrad; Train.TBackward; Train.TOptStep;
     Train.TSchedulerStep (49 # 2)%Q; Train.TNoGradEnter; Train.TModelEval;
     Train.TModelCall; Train.TModelCall; Train.TModelTrain; Train.TNoGradExit;
     Train.TWandbLog (Train.train_keys ∪ Train.eval_keys); Train.TTorchSave]
  /\ omap Train.backward_loss (Train.events o) = [(400 # 2)%Q]
  /\ Train.value o = 50
  /\ omap Train.saved (Train.events o) = [(12, "wandb/run-1/files/model.pt"%string)].
Proof. vm_compute. repeat split. Qed.

(** step 51: batch 0 of epoch 25 *)
Example train_batch_demo_not_evaluated :
  let o := Train.train_batch Demo.rt Demo.config (Train.MSELoss Train.RedNone) 2
             Demo.g [[1]]%Q Demo.g [[2]]%Q 25 0 Demo.g [[1]; [0]]%Q 50 0 in
  map Train.skeleton (Train.events o)
  = [Train.TModelCall; Train.TZeroGrad; Train.TBackward; Train.TOptStep;
     Train.TSchedulerStep (50 # 2)%Q;
     Train.TWandbLog Train.train_keys; Train.TTorchSave]
  /\ Train.value o = 51
  /\ omap Train.saved (Train.events o) = [(6, "wandb/run-1/files/model.pt"%string)].
Proof. vm_compute. repeat split. Qed.

Example training_demo :
  let o := Train.training Demo.rt Demo.small_env 0 in
  map Train.skeleton (Train.events o)
  = Train.TRAIN_STEP 2 0 0 ++ Train.LOG false ++ Train.CHECKPOINT
    ++ Train.TRAIN_STEP 2 0 1 ++ Train.LOG false ++ Train.CHECKPOINT
    ++ Train.TRAIN_STEP 2 1 0 ++ Train.EVAL_STEP ++ Train.LOG true ++ Train.CHECKPOINT
    ++ Train.TRAIN_STEP 2 1 1 ++ Train.LOG false ++ Train.CHECKPOINT
    ++ [Train.TRunFinish]
  /\ omap Train.opt_sched (map Train.skeleton (Train.events o))
     = [Train.TOptStep; Train.TSchedulerStep (0 # 2)%Q;
        Train.TOptStep; Train.TSchedulerStep (1 # 2)%Q;
        Train.TOptStep; Train.TSchedulerStep (2 # 2)%Q;
        Train.TOptStep; Train.TSchedulerStep (3 # 2)%Q]
  /\ omap Train.saved (Train.events o)
     = [(6, "wandb/run-1/files/model.pt"%string);
        (13, "wandb/run-1/files/model.pt"%string);
        (26, "wandb/run-1/files/model.pt"%string);
        (33, "wandb/run-1/files/model.pt"%string)]
  /\ Train.state o = 35.
Proof. vm_compute. repeat split. Qed.

(** C2 on predictions and labels of two rows and two columns. *)
Lemma loss_is_mean_of_unreduced_squared_error_witness :
  (length [[1; 2]; [3; 5]]%Q = 2 /\ length [[0; 2]; [1; 1]]%Q = 2
   /\ Tensor.width_is 2 [[1; 2]; [3; 5]]%Q /\ Tensor.width_is 2 [[0; 2]; [1; 1]]%Q)
  /\ Tensor.mean (Train.MSELoss Train.RedNone [[1; 2]; [3; 5]]%Q [[0; 2]; [1; 1]]%Q)
     = Train.mean_of_squared_errors 2 2 [[1; 2]; [3; 5]]%Q [[0; 2]; [1; 1]]%Q.
Proof.
  assert (H1 : Tensor.width_is 2 [[1; 2]; [3; 5]]%Q) by (repeat constructor).
  assert (H2 : Tensor.width_is 2 [[0; 2]; [1; 1]]%Q) by (repeat constructor).
  split; [repeat split; assumption|].
  apply (loss_is_mean_of_unreduced_squared_error Demo.rt); [reflexivity | reflexivity | exact H1 | exact H2].
Defined.

From Stdlib Require Import Qfield.
From stdpp Require Import sorting.

(** * Further properties *)

(** ** The forward pass *)

Section ForwardMore.
Import Networks Observe.
Context {R : Type}.
Variable M : Modules R.
Variable net : Net.
Variable w : NetParams M.

Lemma forward_graph_restored (g : graph R) (nf ef ff : list (list R)) :
  fst (forward M net w g nf ef ff) = g.
Proof.
  unfold forward, local_scope.
  pose proof (forward_body_topology M net w g nf ef ff) as (E1 & E2 & E3).
  destruct (forward_body M net w nf ef ff g) as [g1 y]. cbn in *.
  unfold with_store. rewrite E1, E2, E3. destruct g; reflexivity.
Qed.

(** X1: the edge embeddings the message passing returns do not reach the
    result of [forward]: whatever they are replaced by, the graph afterwards
    and the prediction are the same. *)
Theorem forward_discards_updated_edge_embeddings
    (f : list (list R) -> list (list R)) (g : graph R) (nf ef ff : list (list R)) :
  forward (with_edge_output f M) net (params_with_edge_output f w) g nf ef ff
  = forward M net w g nf ef ff.
Proof.
  unfold forward, local_scope, forward_body, forward_embed, forward_readout.
  unfold mbind, GM_bind, gbind, mret, GM_ret, gret, call, set_ndata. cbn.
  destruct (HyperMPNN_call M _ _ g _ _ _) as [st [[unf uef] uff]]. reflexivity.
Qed.

(** X2: a call of [forward] has no effect on a later one: on the graph a
    first call returns with, a second call gives what it gives on the graph
    as it was before the first. *)
Theorem forward_calls_do_not_interfere (g : graph R) (nf1 ef1 ff1 nf2 ef2 ff2 : list (list R)) :
  forward M net w (fst (forward M net w g nf1 ef1 ff1)) nf2 ef2 ff2
  = forward M net w g nf2 ef2 ff2.
Proof. by rewrite forward_graph_restored. Qed.
End ForwardMore.

(** ** The setup of a run *)

Section SetupMore.
Import Networks Train Observe.
Context {R : Type} {SR : Scalar R}.
Variable rt : Runtime R.

(** X3: the three files are read one after the other, each in the state the
    read before left; the training loader is built over the graphs and the
    ['y'] labels of the training file, with 3 workers, batches of 128 and
    shuffling; the validation and the test graphs are each batched into one
    graph and keep the ['y'] labels of their own file. *)
Theorem setup_data_flow ds init_feat fg_cyc num_neurons input_norm nef_dp reg_dp device s :
  let p_train := variant init_feat fg_cyc +:+ ds +:+ "_train.bin" in
  let p_val := variant init_feat fg_cyc +:+ ds +:+ "_val.bin" in
  let p_test := variant init_feat fg_cyc +:+ ds +:+ "_test.bin" in
  let s1 := react rt (LoadGraphs p_train) s in
  let s2 := react rt (LoadGraphs p_val) s1 in
  let s3 := react rt (LoadGraphs p_test) s2 in
  let train := load_graphs rt p_train s1 in
  let val := load_graphs rt p_val s2 in
  let test := load_graphs rt p_test s3 in
  let env := value (setup rt ds init_feat fg_cyc num_neurons input_norm nef_dp reg_dp
                      device s) in
  env_train_dl env = mkDataLoader (mkDataset train.1 (train.2 !!! "y"%string)) 3 128 true
  /\ env_val_gs env = dgl_batch rt val.1
  /\ env_val_labels env = val.2 !!! "y"%string
  /\ env_test_gs env = dgl_batch rt test.1
  /\ env_test_labels env = test.2 !!! "y"%string.
Proof.
  unfold setup, load_splits, load.
  destruct init_feat, fg_cyc; run_script;
    repeat match goal with
           | |- context [load_graphs rt ?p ?s] =>
               let gs := fresh "gs" in let info := fresh "info" in
               destruct (load_graphs rt p s) as [gs info]
           end; cbn; repeat split.
Qed.

(** X4: the calls [main] makes before the loop that read a file or that
    build or set up the model, the optimizer, the scheduler and the tracking
    run are, in this order: [load_graphs] for the training, the validation
    and the test file, the construction of the model with the input widths
    100, 7 and 100 and, for validation labels with at least one row, as many
    outputs as a row of them has entries, the optimizer with the learning
    rate [1e-3], the scheduler with [T_0 = 50], [wandb.init] for the project
    [NODEREADOUT-<ds>], without a group and with the whole configuration,
    [to_yaml] of [model_config.yaml] in the directory of the run just started,
    and [wandb.watch].  The dataset, the loader, the two batched graphs and
    the criterion, which lines 86 to 94 and 104 build in between, are values
    of the run and not among these calls. *)
Theorem setup_calls ds init_feat fg_cyc num_neurons input_norm nef_dp reg_dp device s
    (row : list R) (rows : list (list R)) :
  let p_train := variant init_feat fg_cyc +:+ ds +:+ "_train.bin" in
  let p_val := variant init_feat fg_cyc +:+ ds +:+ "_val.bin" in
  let p_test := variant init_feat fg_cyc +:+ ds +:+ "_test.bin" in
  let s2 := react rt (LoadGraphs p_val) (react rt (LoadGraphs p_train) s) in
  let s3 := react rt (LoadGraphs p_test) s2 in
  let val_labels : list (list R) := (load_graphs rt p_val s2).2 !!! "y"%string in
  let config := get_config ds init_feat fg_cyc num_neurons input_norm nef_dp reg_dp in
  let build := ModelInit (length row) 100 7 100
                 (mkModelConfig num_neurons input_norm nef_dp reg_dp) device in
  let init := WandbInit ("NODEREADOUT-" +:+ ds) None config in
  let s7 := react rt init
              (react rt (SchedulerInit 50)
                 (react rt (AdamPInit (1 # 1000)%Q) (react rt build s3))) in
  val_labels = row :: rows ->
  events (setup rt ds init_feat fg_cyc num_neurons input_norm nef_dp reg_dp device s)
  = [LoadGraphs p_train; LoadGraphs p_val; LoadGraphs p_test; build;
     AdamPInit (1 # 1000)%Q; SchedulerInit 50; init;
     ToYaml (join (wandb_run_dir rt s7) "model_config.yaml"); WandbWatch].
Proof.
  intros p_train p_val p_test s2 s3 val_labels config build init s7 Hrows.
  assert (Hout : shape1 val_labels = length row) by (by rewrite Hrows).
  unfold s7, init, build. rewrite <- Hout.
  unfold val_labels, s3, s2, p_train, p_val, p_test, config. clear.
  unfold setup, load_splits, load.
  destruct init_feat, fg_cyc; run_script;
    repeat match goal with
           | |- context [load_graphs rt ?p ?s] =>
               let gs := fresh "gs" in let info := fresh "info" in
               destruct (load_graphs rt p s) as [gs info]
           end; cbn -[join]; reflexivity.
Qed.
End SetupMore.

(** X4 on validation labels of two rows of one entry. *)
Lemma setup_calls_witness :
  (Train.load_graphs Demo.rt "data_nocyc/nocyc_noinit_freesolv_val.bin" 2).2 !!! "y"%string
    = [[1]; [2]]%Q
  /\ Train.events
       (Train.setup Demo.rt "freesolv" false false [128; 64] "batch" 0%Q 0%Q "cuda:1" 0)
     = [Train.LoadGraphs "data_nocyc/nocyc_noinit_freesolv_train.bin";
        Train.LoadGraphs "data_nocyc/nocyc_noinit_freesolv_val.bin";
        Train.LoadGraphs "data_nocyc/nocyc_noinit_freesolv_test.bin";
        Train.ModelInit 1 100 7 100 (Train.mkModelConfig [128; 64] "batch" 0%Q 0%Q) "cuda:1";
        Train.AdamPInit (1 # 1000)%Q;
        Train.SchedulerInit 50;
        Train.WandbInit "NODEREADOUT-freesolv" None Demo.config;
        Train.ToYaml "wandb/run-1/files/model_config.yaml";
        Train.WandbWatch].
Proof.
  split; [reflexivity|].
  apply (setup_calls Demo.rt "freesolv" false false [128; 64] "batch" 0%Q 0%Q "cuda:1" 0
           [1%Q] [[2%Q]]).
  reflexivity.
Defined.

(** ** The loop of a run *)

Section LoopMore.
Import Networks Train Observe.
Context {R : Type} {SR : Scalar R}.
Variable rt : Runtime R.

#[local] Abbreviation tags o := (map skeleton (events o)).

(** X5: with a loader that has no batch a run goes from its setup straight
    to [run.finish()]: no forward pass, no step, no log and no checkpoint,
    and [i / iters] is never computed. *)
Theorem empty_loader_run ds init_feat fg_cyc num_neurons input_norm nef_dp reg_dp device s
    (Hempty : run_iters rt ds init_feat fg_cyc num_neurons input_norm nef_dp reg_dp device s
              = 0) :
  let o := setup rt ds init_feat fg_cyc num_neurons input_norm nef_dp reg_dp device s in
  events (main rt ds init_feat fg_cyc num_neurons input_norm nef_dp reg_dp device s)
  = events o ++ [RunFinish]
  /\ tags (main rt ds init_feat fg_cyc num_neurons input_norm nef_dp reg_dp device s)
     = setup_tags ds init_feat fg_cyc ++ [TRunFinish].
Proof.
  intros o.
  destruct (main_events rt ds init_feat fg_cyc num_neurons input_norm nef_dp reg_dp device s)
    as (bs & E & L & _).
  unfold run_iters in Hempty. rewrite Hempty, Nat.mul_0_r in L.
  apply length_zero_iff_nil in L. subst bs. cbn [flat_map app] in E.
  assert (Ev : events (main rt ds init_feat fg_cyc num_neurons input_norm nef_dp reg_dp
                         device s) = events o ++ [RunFinish]) by exact E.
  split; [exact Ev|].
  rewrite Ev, map_app.
  destruct (setup_outcome rt ds init_feat fg_cyc num_neurons input_norm nef_dp reg_dp
              device s) as (Et & _ & _).
  fold o in Et. rewrite Et. reflexivity.
Qed.

Lemma modes_after_app (m : modes) (a b : list (tag R)) :
  modes_after m (a ++ b)
  = match modes_after m a with Some m' => modes_after m' b | None => None end.
Proof.
  revert m. induction a as [|t a IH]; intros m; cbn; [reflexivity|].
  destruct (mode_step m t); [apply IH | reflexivity].
Qed.

Lemma modes_after_flat_map {X} (F : X -> list (tag R)) (m : modes) (l : list X) :
  (forall x, modes_after m (F x) = Some m) -> modes_after m (flat_map F l) = Some m.
Proof.
  intros HF. induction l as [|x l IH]; cbn; [reflexivity|].
  by rewrite modes_after_app, HF.
Qed.

Lemma modes_after_step_tags log_every iters epoch i k :
  modes_after initial_modes (step_tags (R:=R) log_every iters epoch i k) = Some initial_modes.
Proof. unfold step_tags. destruct (_ =? 0); reflexivity. Qed.

(** X7: throughout a run every step of the training (gradients reset,
    backward pass, optimizer and scheduler step), every log and every save
    is made with gradients recorded and the model in training mode; a
    forward pass is made either so or, for the evaluation, with gradients
    off and the model in evaluation mode; [no_grad] blocks are closed and
    not nested, and the run ends in the modes it began in. *)
Theorem run_keeps_training_and_gradient_modes
    ds init_feat fg_cyc num_neurons input_norm nef_dp reg_dp device s :
  modes_after initial_modes
    (tags (main rt ds init_feat fg_cyc num_neurons input_norm nef_dp reg_dp device s))
  = Some initial_modes.
Proof.
  rewrite main_tags. unfold run_tags, loop_tags, epoch_tags.
  rewrite modes_after_app.
  replace (modes_after initial_modes (setup_tags (R:=R) ds init_feat fg_cyc))
    with (Some initial_modes) by (destruct init_feat, fg_cyc; reflexivity).
  cbv beta iota. rewrite modes_after_app.
  rewrite modes_after_flat_map; [reflexivity|].
  intros e. apply modes_after_flat_map. intros i. apply modes_after_step_tags.
Qed.
End LoopMore.

Example modes_after_demo :
  Observe.modes_after Observe.initial_modes
    [Train.TNoGradEnter; Train.TModelEval; @Train.TBackward Q] = None
  /\ Observe.modes_after Observe.initial_modes
       [Train.TNoGradEnter; @Train.TModelCall Q] = None
  /\ Observe.modes_after Observe.initial_modes
       [Train.TNoGradEnter; Train.TModelEval; @Train.TModelCall Q]
     = Some (Observe.mkModes false false).
Proof. repeat split. Qed.

(** X5 on a runtime whose loader is empty. *)
Lemma empty_loader_run_witness :
  Train.run_iters Observe.empty_rt "freesolv" false false [128; 64] "batch" 0 0 "cuda:1" 0 = 0
  /\ Train.events (Train.main Observe.empty_rt "freesolv" false false [128; 64] "batch" 0 0
                     "cuda:1" 0)
     = Train.events (Train.setup Observe.empty_rt "freesolv" false false [128; 64] "batch"
                       0 0 "cuda:1" 0)
       ++ [Train.RunFinish].
Proof.
  split; [reflexivity|].
  apply (empty_loader_run Observe.empty_rt "freesolv" false false [128; 64] "batch" 0%Q 0%Q
           "cuda:1" 0). reflexivity.
Defined.

(** ** Counting the forward passes of a run *)

Section CountFacts.

Lemma length_flat_map_sum {X Y} (F : X -> list Y) (l : list X) :
  length (flat_map F l) = sum_list (map (fun x => length (F x)) l).
Proof.
  induction l as [|x l IH]; cbn; [reflexivity|]. by rewrite length_app, IH.
Qed.

(** of 50 consecutive step numbers one is a multiple of 50 *)
Lemma sum_over_fifty (a b m : nat) :
  sum_list (map (fun k => if k mod 50 =? 0 then a else b) (seq (1 + 50 * m) 50))
  = a + 49 * b.
Proof.
  replace (1 + 50 * m) with (50 * m + 1) by lia.
  rewrite <- (fmap_add_seq (50 * m) 1 50).
  change (map ?f (Nat.add (50 * m) <$> ?l)) with (map f (map (Nat.add (50 * m)) l)).
  rewrite map_map.
  rewrite (map_ext _ (fun j => if j mod 50 =? 0 then a else b)).
  - cbn -[Nat.add Nat.mul]. lia.
  - intros j. replace (50 * m + j) with (j + m * 50) by lia.
    by rewrite Nat.Div0.mod_add.
Qed.

Lemma sum_over_steps (a b m : nat) :
  sum_list (map (fun k => if k mod 50 =? 0 then a else b) (seq 1 (50 * m)))
  = m * (a + 49 * b).
Proof.
  induction m as [|m IH]; [reflexivity|].
  replace (50 * S m) with (50 * m + 50) by lia.
  rewrite seq_app, map_app, sum_list_with_app, IH, sum_over_fifty. lia.
Qed.
End CountFacts.

Section CountMore.
Import Networks Train Observe.
Context {R : Type} {SR : Scalar R}.
Variable rt : Runtime R.

#[local] Abbreviation tags o := (map skeleton (events o)).

(** X6: a run with [iters = len(train_dl)] batches to the epoch switches the
    model to evaluation mode [48 * iters] times, once in 50 of its
    [2400 * iters] steps, and calls the model [2496 * iters] times: once per
    step and twice more per evaluation. *)
Theorem run_evaluates_every_fiftieth_step
    ds init_feat fg_cyc num_neurons input_norm nef_dp reg_dp device s :
  let run := main rt ds init_feat fg_cyc num_neurons input_norm nef_dp reg_dp device s in
  let iters := run_iters rt ds init_feat fg_cyc num_neurons input_norm nef_dp reg_dp
                 device s in
  length (omap is_model_eval (tags run)) = 48 * iters
  /\ length (omap is_model_call (tags run)) = 2496 * iters.
Proof.
  intros run iters. unfold run. rewrite main_tags. fold iters. split.
  - rewrite run_tags_view.
    replace (omap is_model_eval (setup_tags (R:=R) ds init_feat fg_cyc)) with (@nil unit)
      by (destruct init_feat, fg_cyc; reflexivity).
    cbn [omap list_omap is_model_eval app]. rewrite app_nil_r.
    rewrite (flat_map_ext _ (fun e => flat_map
               (fun i => (fun k => if k mod 50 =? 0 then [tt] else []) (e * iters + i + 1))
               (seq 0 iters))).
    + pose proof (flat_map_global_step
                    (fun k => if k mod 50 =? 0 then [tt] else []) iters 2400) as Hg.
      cbv beta in Hg. rewrite Hg, length_flat_map_sum.
      rewrite (map_ext _ (fun k => if k mod 50 =? 0 then 1 else 0))
        by (intros k; by destruct (_ =? 0)).
      replace (2400 * iters) with (50 * (48 * iters)) by lia.
      rewrite sum_over_steps. lia.
    + intros e. apply flat_map_ext. intros i.
      unfold step_tags. by destruct (_ =? 0).
  - rewrite run_tags_view.
    replace (omap is_model_call (setup_tags (R:=R) ds init_feat fg_cyc)) with (@nil unit)
      by (destruct init_feat, fg_cyc; reflexivity).
    cbn [omap list_omap is_model_call app]. rewrite app_nil_r.
    rewrite (flat_map_ext _ (fun e => flat_map
               (fun i => (fun k => if k mod 50 =? 0 then [tt; tt; tt] else [tt])
                           (e * iters + i + 1))
               (seq 0 iters))).
    + pose proof (flat_map_global_step
                    (fun k => if k mod 50 =? 0 then [tt; tt; tt] else [tt]) iters 2400) as Hg.
      cbv beta in Hg. rewrite Hg, length_flat_map_sum.
      rewrite (map_ext _ (fun k => if k mod 50 =? 0 then 3 else 1))
        by (intros k; by destruct (_ =? 0)).
      replace (2400 * iters) with (50 * (48 * iters)) by lia.
      rewrite sum_over_steps. lia.
    + intros e. apply flat_map_ext. intros i.
      unfold step_tags. by destruct (_ =? 0).
Qed.
End CountMore.

(** ** Where the checkpoints go *)

Section CheckpointMore.
Import Networks Train Observe.
Context {R : Type} {SR : Scalar R}.
Variable rt : Runtime R.

(** only [wandb.init] moves the directory of the run *)
Hypothesis run_dir_stable :
  forall e s, is_wandb_init e = false ->
    wandb_run_dir rt (react rt e s) = wandb_run_dir rt s.

Lemma train_batch_saves_in_run_dir config crit iters vg vl tg tl epoch i gs labels n s :
  let o := train_batch rt config crit iters vg vl tg tl epoch i gs labels n s in
  wandb_run_dir rt (state o) = wandb_run_dir rt s
  /\ omap saved_path (events o) = [join (wandb_run_dir rt s) "model.pt"].
Proof using run_dir_stable.
  unfold train_batch, evaluate. run_script.
  destruct (_ =? 0); cbn -[insert join]; rewrite !run_dir_stable by reflexivity;
    split; reflexivity.
Qed.

Lemma for_fold_saves_in_run_dir {A St} (body : A -> St -> M rt St) (d : string) (c : nat) :
  (forall x acc s, wandb_run_dir rt s = d ->
     wandb_run_dir rt (state (body x acc s)) = d
     /\ omap saved_path (events (body x acc s)) = replicate c (join d "model.pt")) ->
  forall xs acc s, wandb_run_dir rt s = d ->
    wandb_run_dir rt (state (for_fold xs body acc s)) = d
    /\ omap saved_path (events (for_fold xs body acc s))
       = replicate (length xs * c) (join d "model.pt").
Proof.
  intros Hbody. induction xs as [|x xs IH]; intros acc s Hs; cbn [for_fold length].
  - split; [exact Hs | reflexivity].
  - destruct (Hbody x acc s Hs) as [Hd He].
    destruct (IH (value (body x acc s)) (state (body x acc s)) Hd) as [Hd' He'].
    rewrite state_bind, events_bind, omap_app, He, He'. split; [exact Hd'|].
    cbn [Nat.mul]. by rewrite replicate_add.
Qed.

Lemma train_epoch_saves_in_run_dir config crit iters dl vg vl tg tl d epoch n s :
  wandb_run_dir rt s = d ->
  let o := train_epoch rt config crit iters dl vg vl tg tl epoch n s in
  wandb_run_dir rt (state o) = d
  /\ omap saved_path (events o) = replicate (dl_len rt dl) (join d "model.pt").
Proof using run_dir_stable.
  intros Hs. unfold train_epoch, dl_iter. unfold mbind, M_bind.
  rewrite state_bind, events_bind. cbn [read value state events app omap list_omap].
  destruct (for_fold_saves_in_run_dir
              (fun '(i, (gs, labels)) n_update =>
                 train_batch rt config crit iters vg vl tg tl epoch i gs labels n_update)
              d 1) with (xs := enumerate (map (dl_batch rt dl s) (seq 0 (dl_len rt dl))))
              (acc := n) (s := s) as [Hd He]; [|exact Hs|].
  - intros [i [gs labels]] acc s' Hs'.
    destruct (train_batch_saves_in_run_dir config crit iters vg vl tg tl epoch i gs labels
                acc s') as [H1 H2].
    rewrite H1, H2, Hs'. split; reflexivity.
  - split; [exact Hd|]. rewrite He. f_equal.
    rewrite enumerate_map_seq, length_map, length_seq. lia.
Qed.

Lemma no_saved_path_by_tags (evs : list (event R (RT_state_dict rt))) :
  Forall (fun t => t <> TTorchSave) (map skeleton evs) -> omap saved_path evs = [].
Proof.
  induction evs as [|e evs IH]; [reflexivity|].
  cbn [map]. intros Hall. apply Forall_cons in Hall as [He Hevs].
  destruct e; cbn in *; try (by apply IH). by destruct He.
Qed.

(** X8: when only [wandb.init] moves the directory of the tracking run, all
    the [2400 * len(train_dl)] checkpoints of a run are written to the one
    file [model.pt] of the directory the run has after its setup, each over
    the one before; the configuration is written beside it. *)
Theorem checkpoints_overwrite_one_file
    ds init_feat fg_cyc num_neurons input_norm nef_dp reg_dp device s :
  let o := setup rt ds init_feat fg_cyc num_neurons input_norm nef_dp reg_dp device s in
  let d := wandb_run_dir rt (state o) in
  omap saved_path
    (events (main rt ds init_feat fg_cyc num_neurons input_norm nef_dp reg_dp device s))
  = replicate (2400 * dl_len rt (env_train_dl (value o))) (join d "model.pt")
  /\ In (ToYaml (join d "model_config.yaml")) (events o).
Proof using run_dir_stable.
  intros o d. split.
  - unfold main, training. unfold mbind, M_bind. rewrite !events_bind. fold o.
    destruct (setup_outcome rt ds init_feat fg_cyc num_neurons input_norm nef_dp reg_dp
                device s) as (Et & Ec & _).
    fold o in Et, Ec.
    assert (Hep : epochs (train (env_config (value o))) = 2400) by (by rewrite Ec).
    rewrite !Hep, !omap_app, no_saved_path_by_tags.
    + destruct (for_fold_saves_in_run_dir
                  (train_epoch rt (env_config (value o)) (env_criterion (value o))
                     (dl_len rt (env_train_dl (value o))) (env_train_dl (value o))
                     (env_val_gs (value o)) (env_val_labels (value o))
                     (env_test_gs (value o)) (env_test_labels (value o)))
                  d (dl_len rt (env_train_dl (value o))))
        with (xs := seq 0 2400) (acc := 0) (s := state o) as [_ He]; [|reflexivity|].
      * intros e acc s' Hs'. by apply train_epoch_saves_in_run_dir.
      * rewrite He, length_seq. cbn [app emit events omap list_omap saved_path].
        by rewrite app_nil_r.
    + rewrite Et. eapply Forall_impl; [apply setup_tags_plain|]. by intros t [_ ?].
  - unfold d, o, setup, load_splits, load.
    destruct init_feat, fg_cyc; run_script;
      repeat match goal with
             | |- context [load_graphs rt ?p ?s] =>
                 let gs := fresh "gs" in let info := fresh "info" in
                 destruct (load_graphs rt p s) as [gs info]
             end; cbn -[join]; rewrite !run_dir_stable by reflexivity;
      do 7 right; left; reflexivity.
Qed.
End CheckpointMore.

(** X8 on the runtime that counts its calls, whose directory never moves. *)
Lemma checkpoints_overwrite_one_file_witness :
  (forall e s, Observe.is_wandb_init e = false ->
     Train.wandb_run_dir Demo.rt (Train.react Demo.rt e s) = Train.wandb_run_dir Demo.rt s)
  /\ omap Observe.saved_path
       (Train.events (Train.main Demo.rt "freesolv" false false [128; 64] "batch" 0 0
                        "cuda:1" 0))
     = replicate (2400 * 2) "wandb/run-1/files/model.pt"%string.
Proof.
  assert (H : forall e s, Observe.is_wandb_init e = false ->
     Train.wandb_run_dir Demo.rt (Train.react Demo.rt e s) = Train.wandb_run_dir Demo.rt s)
    by (intros; reflexivity).
  split; [exact H|].
  apply (checkpoints_overwrite_one_file Demo.rt H "freesolv" false false [128; 64] "batch"
           0%Q 0%Q "cuda:1" 0).
Defined.

(** ** What is logged *)

Section LogMore.
Import Networks Train Observe.
Context {R : Type} {SR : Scalar R}.
Variable rt : Runtime R.

#[local] Abbreviation tags o := (map skeleton (events o)).

(** X9: the evaluation measures the validation graphs against the
    validation labels and the test graphs against the test labels, the
    second forward pass in the state the first left, both after
    [model.eval()]; it sets [val_rmse] and [test_rmse], over values a
    mapping may already hold, and leaves every other entry as it was. *)
Theorem evaluation_pairs_each_split_with_its_labels
    val_gs val_labels test_gs test_labels (log_dict : gmap string R) s :
  let o := evaluate rt val_gs val_labels test_gs test_labels log_dict s in
  let s_val := react rt ModelEval (react rt NoGradEnter s) in
  let val_call := ModelCall val_gs (node_feat val_gs atom) (edge_feat val_gs interacts)
                    (node_feat val_gs func_group) in
  let val_logits := model_call rt val_gs (node_feat val_gs atom)
                      (edge_feat val_gs interacts) (node_feat val_gs func_group) s_val in
  let s_test := react rt val_call s_val in
  let test_logits := model_call rt test_gs (node_feat test_gs atom)
                       (edge_feat test_gs interacts) (node_feat test_gs func_group)
                       s_test in
  value o !! "val_rmse"%string = Some (compute_rmse rt val_logits val_labels)
  /\ value o !! "test_rmse"%string = Some (compute_rmse rt test_logits test_labels)
  /\ (forall k, k <> "val_rmse"%string -> k <> "test_rmse"%string ->
        value o !! k = log_dict !! k)
  /\ dom (value o) = dom log_dict ∪ eval_keys.
Proof.
  intros o s_val val_call val_logits s_test test_logits.
  unfold o, evaluate. run_script.
  split; [rewrite lookup_insert_ne by discriminate; apply lookup_insert_eq|].
  split; [apply lookup_insert_eq|].
  split; [|apply eval_keys_dom].
  intros k Hv Ht. by rewrite !lookup_insert_ne by congruence.
Qed.

(** X10: the learning rate a batch logs is the one the optimizer has after
    the step of the scheduler of that same batch, not the one its own
    update was made with. *)
Theorem logged_lr_is_read_after_scheduler_step
    config crit iters val_gs val_labels test_gs test_labels epoch i gs labels n s :
  let o := train_batch rt config crit iters val_gs val_labels test_gs test_labels
             epoch i gs labels n s in
  let call := ModelCall gs (node_feat gs atom) (edge_feat gs interacts)
                (node_feat gs func_group) in
  let logits := model_call rt gs (node_feat gs atom) (edge_feat gs interacts)
                  (node_feat gs func_group) s in
  let loss := Tensor.mean (crit logits labels) in
  let s_stepped :=
    react rt (SchedulerStep (radd (of_nat epoch) (rdiv (of_nat i) (of_nat iters))))
      (react rt OptStep (react rt (Backward loss) (react rt ZeroGrad (react rt call s)))) in
  exists log_dict,
    omap logged (events o) = [log_dict]
    /\ log_dict !! "lr"%string = Some (param_group_lr rt s_stepped).
Proof.
  intros o call logits loss s_stepped.
  unfold o, train_batch, evaluate. run_script.
  destruct (_ =? 0); cbn -[insert]; eexists; (split; [reflexivity|]);
    rewrite !lookup_insert_ne by discriminate; apply lookup_insert_eq.
Qed.
End LogMore.

(** ** The three runs of the script *)

Section ScriptMore.
Import Networks Train Observe.
Context {R : Type} {SR : Scalar R}.
Variable rt : Runtime R.

#[local] Abbreviation tags o := (map skeleton (events o)).

(** X11: the script reads its data files anew in each of its three runs:
    nine reads, the three files of the variant three times over. *)
Theorem script_reads_the_files_in_every_run (args : Args) (s : RT_state rt) :
  let paths := split_paths (arg_ds args) (arg_init_feat args) (arg_fg_cyc args) in
  omap loaded_path (tags (script rt args s)) = paths ++ paths ++ paths.
Proof.
  intros paths.
  assert (Hp : forall it, omap loaded_path
             (run_tags (R:=R) (arg_ds args) (arg_init_feat args) (arg_fg_cyc args) it)
             = paths).
  { intros it. rewrite run_tags_view.
    rewrite (flat_map_ext _ (fun _ => [])), flat_map_nil.
    - unfold paths. destruct (arg_init_feat args), (arg_fg_cyc args); reflexivity.
    - intros e. rewrite (flat_map_ext _ (fun _ => [])), flat_map_nil; [reflexivity|].
      intros i. apply step_tags_loaded_path. }
  unfold script. cbn [seq for_fold].
  rewrite !events_bind. cbn [ret events]. rewrite app_nil_r, !map_app, !omap_app.
  by rewrite !main_tags, !Hp.
Qed.
End ScriptMore.

(** X9 on a mapping that holds a learning rate. *)
Lemma evaluation_pairs_each_split_with_its_labels_witness :
  ("lr" <> "val_rmse" /\ "lr" <> "test_rmse")%string
  /\ Train.value (Train.evaluate Demo.rt Demo.g [[1]]%Q Demo.g [[2]]%Q
                    {[ "lr"%string := (1 # 1000)%Q ]} 0) !! "lr"%string
     = ({[ "lr"%string := (1 # 1000)%Q ]} : gmap string Q) !! "lr"%string.
Proof.
  split; [split; discriminate|].
  apply (evaluation_pairs_each_split_with_its_labels Demo.rt Demo.g [[1]]%Q Demo.g [[2]]%Q
           {[ "lr"%string := (1 # 1000)%Q ]} 0); discriminate.
Defined.

(** ** The argument of the scheduler, in exact arithmetic *)

Section SortedFacts.
Context {A : Type} (lt : A -> A -> Prop).

Lemma sorted_map_seq (F : nat -> A) (n : nat) : forall a,
  (forall i j, a <= i -> i < j -> j < a + n -> lt (F i) (F j)) ->
  StronglySorted lt (map F (seq a n)).
Proof.
  induction n as [|n IH]; intros a HF; cbn; constructor.
  - apply IH. intros i j ? ? ?. apply HF; lia.
  - apply Forall_forall. intros x Hx%list_elem_of_In.
    apply in_map_iff in Hx as (j & <- & Hj%in_seq).
    apply HF; lia.
Qed.

Lemma sorted_flat_map_seq (G : nat -> list A) (n : nat) : forall a,
  (forall e, a <= e -> e < a + n -> StronglySorted lt (G e)) ->
  (forall e e' x x', a <= e -> e < e' -> e' < a + n ->
     In x (G e) -> In x' (G e') -> lt x x') ->
  StronglySorted lt (flat_map G (seq a n)).
Proof.
  induction n as [|n IH]; intros a HG Hcross; cbn; [constructor|].
  apply StronglySorted_app_2.
  - intros x x' Hx%list_elem_of_In Hx'%list_elem_of_In.
    apply in_flat_map in Hx' as (e' & He'%in_seq & Hx').
    apply (Hcross a e'); (lia || assumption).
  - apply HG; lia.
  - apply IH.
    + intros e ? ?. apply HG; lia.
    + intros e e' x x' ? ? ?. apply Hcross; lia.
Qed.
End SortedFacts.

Section BlockFacts.
Context {A : Type}.

(** a list made of [E] blocks of [n] entries has [E * n] entries, and entry
    [i] of block [e] sits at index [e * n + i] *)
Lemma length_blocks (F : nat -> nat -> A) (n : nat) : forall E a,
  length (flat_map (fun e => map (F e) (seq 0 n)) (seq a E)) = E * n.
Proof.
  induction E as [|E IH]; intros a; [reflexivity|].
  cbn [seq flat_map]. rewrite length_app, length_map, length_seq, IH. lia.
Qed.

Lemma lookup_blocks (F : nat -> nat -> A) (n : nat) : forall E a e i,
  e < E -> i < n ->
  flat_map (fun e => map (F e) (seq 0 n)) (seq a E) !! (e * n + i) = Some (F (a + e) i).
Proof.
  induction E as [|E IH]; intros a e i He Hi; [lia|].
  cbn [seq flat_map]. destruct e as [|e].
  - rewrite lookup_app_l by (rewrite length_map, length_seq; lia).
    rewrite list_lookup_fmap, lookup_seq_lt by lia. cbn.
    by rewrite Nat.add_0_r.
  - rewrite lookup_app_r by (rewrite length_map, length_seq; lia).
    rewrite length_map, length_seq.
    replace (S e * n + i - n) with (e * n + i) by lia.
    rewrite IH by lia. do 2 f_equal. lia.
Qed.
End BlockFacts.

Section SchedulerMore.
Import Networks Train Observe.
Local Open Scope Q_scope.

(** [epoch + i / iters] is the step number over the number of batches *)
Lemma fractional_epoch_as_quotient (iters epoch i : nat) :
  (0 < iters)%nat ->
  fractional_epoch (R:=Q) iters epoch i
  == inject_Z (Z.of_nat (epoch * iters + i)) / inject_Z (Z.of_nat iters).
Proof.
  intros Hpos. unfold fractional_epoch. cbn [radd rdiv of_nat Q_Scalar].
  rewrite Nat2Z.inj_add, Nat2Z.inj_mul, inject_Z_plus, inject_Z_mult.
  field. intros H0. apply (Qeq_bool_neq (inject_Z (Z.of_nat iters)) 0); [|exact H0].
  unfold Qeq_bool, inject_Z. cbn. destruct iters; [lia | reflexivity].
Qed.

Lemma fractional_epoch_lt (iters e i e' i' : nat) :
  (0 < iters)%nat -> (e * iters + i < e' * iters + i')%nat ->
  fractional_epoch (R:=Q) iters e i < fractional_epoch iters e' i'.
Proof.
  intros Hpos Hlt. rewrite !fractional_epoch_as_quotient by exact Hpos.
  unfold Qdiv. apply Qmult_lt_r.
  - apply Qinv_lt_0_compat. rewrite <- (Zlt_Qlt 0). lia.
  - rewrite <- Zlt_Qlt. lia.
Qed.

Lemma fractional_epoch_le (iters e i e' i' : nat) :
  (0 < iters)%nat -> (e * iters + i <= e' * iters + i')%nat ->
  fractional_epoch (R:=Q) iters e i <= fractional_epoch iters e' i'.
Proof.
  intros Hpos Hle. rewrite !fractional_epoch_as_quotient by exact Hpos.
  unfold Qdiv. apply Qmult_le_compat_r.
  - rewrite <- Zle_Qle. lia.
  - apply Qlt_le_weak, Qinv_lt_0_compat. rewrite <- (Zlt_Qlt 0). lia.
Qed.

Lemma fractional_epoch_at_zero (iters e : nat) :
  (0 < iters)%nat -> fractional_epoch (R:=Q) iters e 0 == inject_Z (Z.of_nat e).
Proof.
  intros Hpos. rewrite fractional_epoch_as_quotient by exact Hpos.
  rewrite Nat.add_0_r, Nat2Z.inj_mul, inject_Z_mult.
  field. intros H0. apply (Qeq_bool_neq (inject_Z (Z.of_nat iters)) 0); [|exact H0].
  unfold Qeq_bool, inject_Z. cbn. destruct iters; [lia | reflexivity].
Qed.

Variable rt : Runtime Q.

#[local] Abbreviation tags o := (map skeleton (events o)).

Lemma scheduler_args_of_run ds init_feat fg_cyc nn inorm nd rd dev s :
  let iters := run_iters rt ds init_feat fg_cyc nn inorm nd rd dev s in
  omap scheduler_arg (tags (main rt ds init_feat fg_cyc nn inorm nd rd dev s))
  = flat_map (fun e => map (fractional_epoch iters e) (seq 0 iters)) (seq 0 2400).
Proof.
  intros iters. rewrite main_tags, run_tags_view. fold iters.
  replace (omap scheduler_arg (setup_tags (R:=Q) ds init_feat fg_cyc)) with (@nil Q)
    by (destruct init_feat, fg_cyc; reflexivity).
  cbn [omap list_omap scheduler_arg app]. rewrite app_nil_r.
  apply flat_map_ext. intros e. rewrite <- flat_map_singleton_map.
  apply flat_map_ext. intros i. unfold step_tags. by destruct (_ =? 0)%nat.
Qed.

(** X12: with exact rational arithmetic for the scalars, a run advances the
    scheduler [2400 * iters] times, where [iters] is the number of batches of
    the loader; the advance made for batch [i] of epoch [e] is the one at
    position [e * iters + i] and its argument is [e + i / iters], which is
    the epoch number [e] at batch 0 and stays in the epoch, at least [e] and
    below [e + 1]; the arguments increase strictly from each advance to the
    next and all lie between 0 and the 2400 epochs of the run. *)
Theorem scheduler_argument_increases_within_epochs
    ds init_feat fg_cyc num_neurons input_norm nef_dp reg_dp device s :
  let iters := run_iters rt ds init_feat fg_cyc num_neurons input_norm nef_dp reg_dp
                 device s in
  let args := omap scheduler_arg
                (tags (main rt ds init_feat fg_cyc num_neurons input_norm nef_dp reg_dp
                         device s)) in
  length args = (2400 * iters)%nat
  /\ (forall e i, (e < 2400)%nat -> (i < iters)%nat ->
        exists x,
          args !! (e * iters + i)%nat = Some x
          /\ x = fractional_epoch iters e i
          /\ x == inject_Z (Z.of_nat e) + inject_Z (Z.of_nat i) / inject_Z (Z.of_nat iters)
          /\ inject_Z (Z.of_nat e) <= x
          /\ x < inject_Z (Z.of_nat (e + 1))
          /\ (i = 0%nat -> x == inject_Z (Z.of_nat e)))
  /\ StronglySorted Qlt args
  /\ Forall (fun x => 0 <= x /\ x < 2400) args
  /\ (forall iters e i, (i < iters)%nat ->
        inject_Z (Z.of_nat e) <= fractional_epoch (R:=Q) iters e i
        /\ fractional_epoch (R:=Q) iters e i < inject_Z (Z.of_nat (e + 1))).
Proof.
  assert (Hin : forall iters e i, (i < iters)%nat ->
        inject_Z (Z.of_nat e) <= fractional_epoch (R:=Q) iters e i
        /\ fractional_epoch (R:=Q) iters e i < inject_Z (Z.of_nat (e + 1))).
  { intros iters e i Hi. assert (Hpos : (0 < iters)%nat) by lia. split.
    - rewrite <- (fractional_epoch_at_zero iters e Hpos).
      apply fractional_epoch_le; [exact Hpos | lia].
    - rewrite <- (fractional_epoch_at_zero iters (e + 1) Hpos).
      apply fractional_epoch_lt; [exact Hpos | lia]. }
  intros iters args. unfold args. rewrite scheduler_args_of_run. fold iters.
  split; [apply length_blocks|].
  split; [|split; [|split; [|exact Hin]]].
  - intros e i He Hi. exists (fractional_epoch iters e i).
    split; [by rewrite lookup_blocks by assumption|]. split; [reflexivity|].
    destruct (Hin iters e i Hi) as [Hlo Hhi].
    split; [reflexivity|]. split; [exact Hlo|]. split; [exact Hhi|].
    intros ->. apply fractional_epoch_at_zero. lia.
  - apply sorted_flat_map_seq.
    + intros e _ _. apply sorted_map_seq. intros i j _ Hij Hj.
      apply fractional_epoch_lt; lia.
    + intros e e' x x' _ Hee' _ Hx Hx'.
      apply in_map_iff in Hx as (i & <- & Hi%in_seq).
      apply in_map_iff in Hx' as (i' & <- & Hi'%in_seq).
      apply fractional_epoch_lt; nia.
  - apply Forall_flat_map, Forall_forall. intros e He%list_elem_of_In%in_seq.
    apply Forall_forall. intros x Hx%list_elem_of_In.
    apply in_map_iff in Hx as (i & <- & Hi%in_seq).
    destruct (Hin iters e i) as [Hlo Hhi]; [lia|]. split.
    + eapply Qle_trans; [|exact Hlo]. rewrite <- (Zle_Qle 0). lia.
    + eapply Qlt_le_trans; [exact Hhi|].
      change 2400 with (inject_Z 2400). rewrite <- Zle_Qle. lia.
Qed.
End SchedulerMore.

(** X12 at batch 1 of 2 of epoch 24: the advance at position 49 of the run
    has the argument [24 + 1 / 2]. *)
Lemma scheduler_argument_increases_within_epochs_witness :
  ((24 < 2400)%nat
   /\ (1 < Train.run_iters Demo.rt "freesolv" false false [128; 64] "batch" 0%Q 0%Q
             "cuda:1" 0)%nat)
  /\ omap Observe.scheduler_arg
       (map Train.skeleton
          (Train.events
             (Train.main Demo.rt "freesolv" false false [128; 64] "batch" 0%Q 0%Q
                "cuda:1" 0))) !! 49%nat
     = Some (Train.fractional_epoch 2 24 1)
  /\ (Train.fractional_epoch (R:=Q) 2 24 1 == 49 # 2)%Q
  /\ (inject_Z 24 <= Train.fractional_epoch (R:=Q) 2 24 1)%Q
  /\ (Train.fractional_epoch (R:=Q) 2 24 1 < inject_Z 25)%Q.
Proof.
  assert (Hi : (1 < Train.run_iters Demo.rt "freesolv" false false [128; 64] "batch"
                      0%Q 0%Q "cuda:1" 0)%nat) by (vm_compute; lia).
  split; [split; [lia | exact Hi]|].
  destruct (scheduler_argument_increases_within_epochs Demo.rt "freesolv" false false
              [128; 64] "batch" 0%Q 0%Q "cuda:1" 0) as (_ & Hat & _).
  destruct (Hat 24%nat 1%nat ltac:(lia) Hi) as (x & Hx & Heq & _ & Hlo & Hhi & _).
  subst x. split; [exact Hx|]. split; [reflexivity|]. split; [exact Hlo | exact Hhi].
Defined.

(** ** The order of a run *)

Section OrderMore.
Import Networks Train Observe.
Context {R : Type} {SR : Scalar R}.
Variable rt : Runtime R.

#[local] Abbreviation tags o := (map skeleton (events o)).

(** X13: [load_graphs] for the three files, the constructions of the model,
    of the optimizer and of the scheduler, [wandb.init], [to_yaml] and
    [wandb.watch] are each made once in a run, in this order and before the
    first forward pass of the model; the loop makes none of them again.  In
    the trace of the run, which does not list the values built between them
    (the dataset, the loader, the two batched graphs and the criterion), they
    are the first nine entries. *)
Theorem setup_calls_are_made_once_before_the_loop
    ds init_feat fg_cyc num_neurons input_norm nef_dp reg_dp device s :
  let run := main rt ds init_feat fg_cyc num_neurons input_norm nef_dp reg_dp device s in
  let iters := run_iters rt ds init_feat fg_cyc num_neurons input_norm nef_dp reg_dp
                 device s in
  omap setup_call (tags run) = setup_tags ds init_feat fg_cyc
  /\ take 9 (tags run) = setup_tags ds init_feat fg_cyc
  /\ omap setup_call (drop 9 (tags run)) = []
  /\ omap is_model_call (take 9 (tags run)) = [].
Proof.
  intros run iters. unfold run. rewrite main_tags. fold iters.
  assert (Hloop : omap setup_call (loop_tags (R:=R) 50 iters 2400 ++ [TRunFinish]) = []).
  { rewrite omap_app, loop_tags_view.
    rewrite (flat_map_ext _ (fun _ => [])), flat_map_nil; [reflexivity|].
    intros e. rewrite (flat_map_ext _ (fun _ => [])), flat_map_nil; [reflexivity|].
    intros i. unfold step_tags. by destruct (_ =? 0). }
  assert (Hlen : length (setup_tags (R:=R) ds init_feat fg_cyc) = 9) by reflexivity.
  unfold run_tags. split; [|split; [|split]].
  - rewrite omap_app, Hloop, app_nil_r. destruct init_feat, fg_cyc; reflexivity.
  - rewrite take_app_length' by exact Hlen. reflexivity.
  - rewrite drop_app_length' by exact Hlen. exact Hloop.
  - rewrite take_app_length' by exact Hlen. destruct init_feat, fg_cyc; reflexivity.
Qed.

Lemma for_fold_epoch_batches env epoch s0 (indices : list nat) : forall n s,
  events (for_fold (map (fun i => (i, dl_batch rt (env_train_dl env) s0 i)) indices)
            (fun '(i, (gs, labels)) n_update =>
               train_batch rt (env_config env) (env_criterion env)
                 (dl_len rt (env_train_dl env))
                 (env_val_gs env) (env_val_labels env) (env_test_gs env)
                 (env_test_labels env) epoch i gs labels n_update) n s)
  = flat_map (fun b => events (run_batch rt env b)) (epoch_batches rt env epoch s0 indices n s).
Proof.
  induction indices as [|i rest IH]; intros n s; cbn [map for_fold epoch_batches flat_map].
  - reflexivity.
  - rewrite events_bind.
    destruct (dl_batch rt (env_train_dl env) s0 i) as [gs labels] eqn:Eb.
    cbn [fst snd]. rewrite IH. reflexivity.
Qed.

Lemma epoch_batches_facts env epoch s0 (indices : list nat) : forall n s,
  let bs := epoch_batches rt env epoch s0 indices n s in
  map br_i bs = indices
  /\ map br_n_update bs = seq n (length indices)
  /\ Forall (fun b => br_epoch b = epoch
                      /\ (br_gs b, br_labels b)
                         = dl_batch rt (env_train_dl env) s0 (br_i b)) bs
  /\ chained rt env s bs.
Proof.
  induction indices as [|i rest IH]; intros n s; cbn [epoch_batches map length seq chained].
  - repeat split. constructor.
  - set (b := mkBatchRun epoch i (dl_batch rt (env_train_dl env) s0 i).1
                (dl_batch rt (env_train_dl env) s0 i).2 n s).
    destruct (IH (value (run_batch rt env b)) (state (run_batch rt env b)))
      as (H1 & H2 & H3 & H4).
    assert (Hv : value (run_batch rt env b) = S n).
    { unfold run_batch. rewrite train_batch_value. cbn. lia. }
    cbn [br_i br_n_update b].
    split; [by rewrite H1|]. split; [by rewrite H2, Hv|]. split.
    + constructor; [|exact H3]. cbn. split; [reflexivity|]. by destruct (dl_batch _ _ _ _).
    + split; [reflexivity | exact H4].
Qed.

(** X14: an epoch makes one pass over the loader, begun in the state the
    epoch begins in, and runs its batches in the order of the pass, batch
    [i] with the counter [n_update + i], each batch in the state the one
    before left. *)
Theorem epoch_runs_one_pass_over_the_loader env epoch n s :
  let dl := env_train_dl env in
  let bs := epoch_batches rt env epoch s (seq 0 (dl_len rt dl)) n s in
  events (train_epoch rt (env_config env) (env_criterion env) (dl_len rt dl) dl
            (env_val_gs env) (env_val_labels env) (env_test_gs env)
            (env_test_labels env) epoch n s)
  = flat_map (fun b => events (run_batch rt env b)) bs
  /\ map br_i bs = seq 0 (dl_len rt dl)
  /\ map br_n_update bs = seq n (dl_len rt dl)
  /\ Forall (fun b => br_epoch b = epoch
                      /\ (br_gs b, br_labels b) = dl_batch rt dl s (br_i b)) bs
  /\ chained rt env s bs.
Proof.
  intros dl bs.
  destruct (epoch_batches_facts env epoch s (seq 0 (dl_len rt dl)) n s)
    as (H1 & H2 & H3 & H4).
  rewrite length_seq in H2.
  split; [|repeat split; assumption].
  unfold train_epoch, dl_iter. unfold mbind, M_bind.
  rewrite events_bind. cbn [read value state events app].
  rewrite enumerate_map_seq. apply for_fold_epoch_batches.
Qed.

(** X15: the last step of a run with at least one batch to the epoch
    evaluates, 50 dividing the [2400 * len(train_dl)] steps: the last
    mapping a run logs holds the validation and the test error. *)
Theorem last_log_of_a_run_has_the_evaluation
    ds init_feat fg_cyc num_neurons input_norm nef_dp reg_dp device s
    (Hbatches : 0 < run_iters rt ds init_feat fg_cyc num_neurons input_norm nef_dp reg_dp
                      device s) :
  last (omap logged_keys
          (tags (main rt ds init_feat fg_cyc num_neurons input_norm nef_dp reg_dp device s)))
  = Some (train_keys ∪ eval_keys).
Proof.
  rewrite main_tags, run_tags_view.
  set (iters := run_iters rt ds init_feat fg_cyc num_neurons input_norm nef_dp reg_dp
                  device s) in *.
  replace (omap logged_keys (setup_tags (R:=R) ds init_feat fg_cyc))
    with (@nil (gset string)) by (destruct init_feat, fg_cyc; reflexivity).
  cbn [omap list_omap logged_keys app]. rewrite app_nil_r.
  rewrite (flat_map_ext _ (fun e => flat_map
             (fun i => (fun k => [if k mod 50 =? 0 then train_keys ∪ eval_keys
                                  else train_keys]) (e * iters + i + 1))
             (seq 0 iters))).
  - pose proof (flat_map_global_step
                  (fun k => [if k mod 50 =? 0 then train_keys ∪ eval_keys else train_keys])
                  iters 2400) as Hg.
    cbv beta in Hg. rewrite Hg.
    destruct (2400 * iters) as [|m] eqn:Em; [lia|].
    rewrite seq_S, flat_map_app. cbn [flat_map app]. rewrite last_snoc.
    replace (1 + m) with ((48 * iters) * 50) by lia.
    by rewrite Nat.Div0.mod_mul.
  - intros e. apply flat_map_ext. intros i. unfold step_tags. by destruct (_ =? 0).
Qed.
End OrderMore.

(** X15 on the runtime with two batches to the epoch. *)
Lemma last_log_of_a_run_has_the_evaluation_witness :
  0 < Train.run_iters Demo.rt "freesolv" false false [128; 64] "batch" 0 0 "cuda:1" 0
  /\ last (omap Observe.logged_keys
             (map Train.skeleton
                (Train.events (Train.main Demo.rt "freesolv" false false [128; 64] "batch"
                                 0 0 "cuda:1" 0))))
     = Some (Train.train_keys ∪ Train.eval_keys).
Proof.
  assert (H : 0 < Train.run_iters Demo.rt "freesolv" false false [128; 64] "batch" 0 0
                    "cuda:1" 0) by (vm_compute; lia).
  split; [exact H|].
  exact (last_log_of_a_run_has_the_evaluation Demo.rt "freesolv" false false [128; 64]
           "batch" 0%Q 0%Q "cuda:1" 0 H).
Defined.
